(** * SlamShow: the OpenCV / pyplot display of BreezySLAM

    A shallow embedding of [examples/pltslamshow.py].

    The file is Python 2: [displayRobot] takes a tuple parameter
    (line 126), the module imports the legacy [cv] binding, and there is
    no [from __future__ import division].  Hence [/] between two integers
    is floor division, [int(...)] of a float truncates toward zero, and a
    [bytearray] is the mutable byte buffer of CPython 2.6+.

    Numbers are modelled as Python has them: unbounded integers ([Z]) and
    binary64 floats (Rocq's primitive [float], whose operations are the
    IEEE 754 ones).  The C library's [sin] and [cos], which Python's
    [math] module calls, are parameters of the development.

    Every method of [SlamShow] is embedded except [waitkey], a blocking
    poll loop that no property below is about. *)

From Stdlib Require Import ZArith Lia String Floats Bool.
From Stdlib Require Import Strings.Byte.
From stdpp Require Import base list.
Local Open Scope Z_scope.

(** ** Exceptions and results *)

Inductive exn :=
  | ValueError
  | OverflowError
  | ZeroDivisionError
  | IndexError
  | AttributeError
  | KeyboardInterrupt
  | RuntimeError.

Inductive result (A : Type) :=
  | Ret (a : A)
  | Raise (e : exn).
Arguments Ret {A} a.
Arguments Raise {A} e.

#[global] Instance result_ret : MRet result := @Ret.
#[global] Instance result_bind : MBind result :=
  fun _ _ k r => match r with Ret a => k a | Raise e => Raise e end.
#[global] Instance result_fmap : FMap result :=
  fun _ _ f r => match r with Ret a => Ret (f a) | Raise e => Raise e end.

(** ** Python 2 numbers *)

Inductive pynum :=
  | PyInt (z : Z)
  | PyFloat (f : float).

Coercion PyInt : Z >-> pynum.

(** A float that is neither an infinity nor a NaN. *)
Definition finite (f : float) : bool :=
  match Prim2SF f with
  | S754_zero _ | S754_finite _ _ _ => true
  | _ => false
  end.

(** [float(x)]: an integer is rounded to the nearest double (ties to
    even); one too large for a double raises [OverflowError]. *)
Definition py_float (x : pynum) : result float :=
  match x with
  | PyFloat f => Ret f
  | PyInt z =>
      match binary_normalize prec emax z 0 false with
      | S754_infinity _ => Raise OverflowError
      | sf => Ret (SF2Prim sf)
      end
  end.

(** [int(x)]: identity on an integer, truncation toward zero on a float;
    [int(nan)] raises [ValueError], [int(inf)] raises [OverflowError]. *)
Definition py_int (x : pynum) : result Z :=
  match x with
  | PyInt z => Ret z
  | PyFloat f =>
      match Prim2SF f with
      | S754_zero _ => Ret 0
      | S754_finite s m e => Ret (cond_Zopp s (Z.shiftl (Z.pos m) e))
      | S754_infinity _ => Raise OverflowError
      | S754_nan => Raise ValueError
      end
  end.

(** Binary arithmetic: two integers stay integers, anything else is
    computed in doubles after converting the left, then the right
    operand. *)
Definition binop (fi : Z -> Z -> result pynum)
    (ff : float -> float -> result pynum) (a b : pynum) : result pynum :=
  match a, b with
  | PyInt x, PyInt y => fi x y
  | _, _ => x ← py_float a; y ← py_float b; ff x y
  end.

Definition py_add : pynum -> pynum -> result pynum :=
  binop (fun x y => Ret (PyInt (x + y))) (fun x y => Ret (PyFloat (x + y))).

Definition py_sub : pynum -> pynum -> result pynum :=
  binop (fun x y => Ret (PyInt (x - y))) (fun x y => Ret (PyFloat (x - y))).

Definition py_mul : pynum -> pynum -> result pynum :=
  binop (fun x y => Ret (PyInt (x * y))) (fun x y => Ret (PyFloat (x * y))).

(** Classic division [/] of Python 2: floor division on two integers,
    IEEE division otherwise; a zero divisor raises. *)
Definition py_div : pynum -> pynum -> result pynum :=
  binop
    (fun x y => if y =? 0 then Raise ZeroDivisionError else Ret (PyInt (x / y)))
    (fun x y => if (y =? 0)%float then Raise ZeroDivisionError
                else Ret (PyFloat (x / y))).

Definition py_neg (a : pynum) : pynum :=
  match a with
  | PyInt z => PyInt (- z)
  | PyFloat f => PyFloat (- f)
  end.

(** [a < 0] *)
Definition py_lt0 (a : pynum) : bool :=
  match a with
  | PyInt z => z <? 0
  | PyFloat f => (f <? 0)%float
  end.

(** The exact value of a finite double, as a fraction [float_num / float_den]. *)
Definition float_num (f : float) : Z :=
  match Prim2SF f with
  | S754_finite s m e => cond_Zopp s (Z.pos m * 2 ^ Z.max e 0)
  | _ => 0
  end.

Definition float_den (f : float) : Z :=
  match Prim2SF f with
  | S754_finite _ _ e => 2 ^ Z.max (- e) 0
  | _ => 1
  end.

(** ** Module constants (lines 20-47) *)

Definition color := (Z * Z * Z)%type.

Definition ROBOT_COLOR_BGR : color := (0, 0, 255).
Definition ROBOT_HEIGHT : Z := 16.
Definition ROBOT_WIDTH : Z := 10.
Definition ROBOT_HEIGHT_MM : Z := 500.
Definition ROBOT_WIDTH_MM : Z := 300.
Definition SCANPOINT_RADIUS : Z := 1.
Definition SCANPOINT_COLOR_BGR : color := (0, 255, 0).
Definition SENSOR_V_MAX_MM : Z := 1000.
Definition SENSOR_THETA_MAX_DEG : Z := 20.
Definition SENSOR_BAR_X : Z := 150.
Definition SENSOR_BAR_Y_OFFSET : Z := 3.
Definition SENSOR_BAR_WIDTH : Z := 20.
Definition SENSOR_BAR_MAX_HEIGHT : Z := 200.
Definition SENSOR_TEXT_X : Z := 20.
Definition SENSOR_V_Y : Z := 30.
Definition SENSOR_THETA_Y : Z := 80.
Definition SENSOR_LABEL_COLOR_BGR : color := (255, 0, 0).
Definition SENSOR_POSITIVE_COLOR_BGR : color := (0, 255, 0).
Definition SENSOR_NEGATIVE_COLOR_BGR : color := (0, 0, 255).
Definition TRAJECTORY_COLOR_BGR : color := (255, 0, 0).

(** ** Pure helpers of the class *)

Definition point := (pynum * pynum)%type.
Definition pixel := (Z * Z)%type.

(** [robot_polyline] (lines 242-248).  Unary minus binds tighter than [/]. *)
Definition robot_polyline (scale : pynum) : result (list point) :=
  xlft ← py_div (py_neg ROBOT_HEIGHT) 2 ≫= (fun q => py_mul q scale);
  xrgt ← py_div ROBOT_HEIGHT 2 ≫= (fun q => py_mul q scale);
  ybot ← py_div ROBOT_WIDTH 2 ≫= (fun q => py_mul q scale);
  ytop ← py_div (py_neg ROBOT_HEIGHT) 2 ≫= (fun q => py_mul q scale);
  mret [(xlft, ybot); (xrgt, PyInt 0); (xlft, ytop)].

(** [mm2pix] (lines 252-253); [scale] is [self.map_scale_mm_per_pixel]. *)
Definition mm2pix (scale : pynum) (mm : pynum) : result Z :=
  fs ← py_float scale;
  q ← py_div mm (PyFloat fs);
  py_int q.


(** ** The session and the two display surfaces *)

(** The arrow annotation returned by [ax.arrow]. *)
Record Arrow := {
  arrow_x : pynum;
  arrow_y : pynum;
  arrow_dx : pynum;
  arrow_dy : pynum
}.

(** The attributes of a [SlamShow] object.  [vehicle] is [None] until
    [_add_vehicle] has run; the handles [image], [font] and [ax] carry
    no data of their own and are left to the call trace. *)
Record SlamShow := {
  map_size_pixels : Z;
  map_scale_mm_per_pixel : pynum;
  window_name : string;
  bgrbytes : list byte;
  figid : Z;
  vehicle : option Arrow
}.

(** Calls made on the raster surface ([cv]) and the plot surface
    ([plt], the figure and its axes), in program order. *)
Inductive Call :=
  | cv_CreateImageHeader (width height : Z)
  | cv_NamedWindow (name : string)
  | cv_InitFont
  | cv_SetData (data : list byte) (step : Z)
  | cv_ShowImage (name : string)
  | cv_PolyLine (pts : list pixel) (closed : bool) (c : color) (thickness : Z)
  | cv_Circle (center : pixel) (radius : Z) (c : color)
  | cv_Line (p1 p2 : pixel) (c : color)
  | cv_PutText (text : string) (org : pixel) (c : color)
  | cv_Rectangle (p1 p2 : pixel) (c : color)
  | cv_WaitKey (delay : Z)
  | plt_figure
  | fig_set_window_title (title : string)
  | ax_set_aspect
  | ax_set_autoscale_on
  | ax_set_xlim (lo hi : pynum)
  | ax_set_ylim (lo hi : pynum)
  | ax_set_xlabel (label : string)
  | ax_set_ylabel (label : string)
  | ax_grid (on : bool)
  | ax_arrow (a : Arrow) (head_width head_length : Z)
  | arrow_remove (a : Arrow)
  | plt_draw
  | plt_pause.

Record World := {
  self : SlamShow;
  calls : list Call
}.

(** Methods run in a state monad over [World].  An exception leaves the
    mutations made before it in place, as in Python. *)
Definition M (A : Type) : Type := World -> result A * World.

#[global] Instance M_ret : MRet M := fun _ a w => (Ret a, w).
#[global] Instance M_bind : MBind M :=
  fun _ _ k m w =>
    match m w with
    | (Ret a, w') => k a w'
    | (Raise e, w') => (Raise e, w')
    end.

Definition lift {A} (r : result A) : M A := fun w => (r, w).

Definition get_self : M SlamShow := fun w => (Ret (self w), w).

Definition set_self (s : SlamShow) : M unit :=
  fun w => (Ret tt, {| self := s; calls := calls w |}).

Definition call (c : Call) : M unit :=
  fun w => (Ret tt, {| self := self w; calls := calls w ++ [c] |}).

(** [try: m  except: ...] with a bare [except]: the outcome of [m] is
    handed to the continuation and nothing propagates. *)
Definition try_ {A} (m : M A) : M (result A) :=
  fun w => let '(r, w') := m w in (Ret r, w').

Fixpoint for_each {A} (l : list A) (body : A -> M unit) : M unit :=
  match l with
  | [] => mret tt
  | x :: l' => body x;; for_each l' body
  end.

(** [l[k]] for [0 <= k]. *)
Definition py_index {A} (l : list A) (k : nat) : result A :=
  match l !! k with
  | Some a => Ret a
  | None => Raise IndexError
  end.

(** ** Extended slice assignment on a bytearray

    [b[start::step] = vals] as CPython's [bytearray_ass_subscript] does it
    for [step > 1]: an empty right-hand side deletes the slice, a
    right-hand side of another length than the slice raises [ValueError]
    before any byte is written, and otherwise the bytes are stored one by
    one. *)

Definition slice_length (len start step : nat) : nat :=
  if (start <? len)%nat then ((len - start - 1) / step + 1)%nat else 0%nat.

Fixpoint store_stride (cur step : nat) (vals b : list byte) : list byte :=
  match vals with
  | [] => b
  | v :: vals' => store_stride (cur + step) step vals' (<[cur := v]> b)
  end.

Fixpoint delete_stride (cur step n : nat) (b : list byte) : list byte :=
  match n with
  | O => b
  | S n' => delete cur (delete_stride (cur + step) step n' b)
  end.

Definition setslice_ext (start step : nat) (b vals : list byte)
    : result (list byte) :=
  let slicelen := slice_length (length b) start step in
  if (length vals =? 0)%nat then Ret (delete_stride start step slicelen b)
  else if negb (length vals =? slicelen)%nat then Raise ValueError
  else Ret (store_stride start step vals b).

(** [self.bgrbytes[start::3] = mapbytes] *)
Definition set_bgr_slice (start : nat) (mapbytes : list byte) : M unit :=
  s ← get_self;
  b ← lift (setslice_ext start 3 (bgrbytes s) mapbytes);
  set_self {| map_size_pixels := map_size_pixels s;
              map_scale_mm_per_pixel := map_scale_mm_per_pixel s;
              window_name := window_name s;
              bgrbytes := b;
              figid := figid s;
              vehicle := vehicle s |}.

(** [displayMap] (lines 113-123). *)
Definition displayMap (mapbytes : list byte) : M unit :=
  set_bgr_slice 0 mapbytes;;
  set_bgr_slice 1 mapbytes;;
  set_bgr_slice 2 mapbytes;;
  s ← get_self;
  call (cv_SetData (bgrbytes s) (map_size_pixels s * 3)).

(** [displayScan] (lines 143-147). *)
Definition displayScan (scan : list point) (offset_mm : point) (c : color)
    : M unit :=
  for_each scan (fun pt =>
    s ← get_self;
    x ← lift (py_add pt.1 offset_mm.1 ≫= mm2pix (map_scale_mm_per_pixel s));
    y ← lift (py_add pt.2 offset_mm.2 ≫= mm2pix (map_scale_mm_per_pixel s));
    call (cv_Circle (x, y) SCANPOINT_RADIUS c)).

(** One turn of the loop of [displayTrajectory] (lines 160-166). *)
Definition trajectory_step (trajectory : list point) (k : nat) : M unit :=
  '(x1_mm, y1_mm) ← lift (py_index trajectory (k - 1));
  '(x2_mm, y2_mm) ← lift (py_index trajectory k);
  s ← get_self;
  x1 ← lift (mm2pix (map_scale_mm_per_pixel s) x1_mm);
  y1 ← lift (mm2pix (map_scale_mm_per_pixel s) y1_mm);
  x2 ← lift (mm2pix (map_scale_mm_per_pixel s) x2_mm);
  y2 ← lift (mm2pix (map_scale_mm_per_pixel s) y2_mm);
  call (cv_Line (x1, y1) (x2, y2) TRAJECTORY_COLOR_BGR).

(** [displayTrajectory] (lines 156-166): [k] runs over
    [range(1, len(trajectory))]. *)
Definition displayTrajectory (trajectory : list point) : M unit :=
  for_each (seq 1 (length trajectory - 1)) (trajectory_step trajectory).

(** [show_velocity] (lines 229-236). *)
Definition show_velocity (value valspan : pynum) (label : string) (y : Z)
    : M unit :=
  call (cv_PutText (label ++ ":") (SENSOR_TEXT_X, y) SENSOR_LABEL_COLOR_BGR);;
  let bar_x1 := SENSOR_BAR_X + SENSOR_BAR_MAX_HEIGHT in
  let bar_y1 := y + SENSOR_BAR_Y_OFFSET in
  len ← lift (q ← py_div value valspan;
              p ← py_mul q SENSOR_BAR_MAX_HEIGHT;
              py_int p);
  let bar_x2 := bar_x1 + len in
  let bar_y2 := y - SENSOR_BAR_WIDTH + SENSOR_BAR_Y_OFFSET in
  let bar_color := if py_lt0 value then SENSOR_NEGATIVE_COLOR_BGR
                   else SENSOR_POSITIVE_COLOR_BGR in
  call (cv_Rectangle (bar_x1, bar_y1) (bar_x2, bar_y2) bar_color).

(** [displayVelocities] (lines 150-154). *)
Definition displayVelocities (dxy_mm dtheta_deg : pynum) : M unit :=
  show_velocity dxy_mm SENSOR_V_MAX_MM "   dXY" SENSOR_V_Y;;
  show_velocity dtheta_deg SENSOR_THETA_MAX_DEG "dTheta" SENSOR_THETA_Y.

(** ** The refresh cycle

    What the outside world presents to one call of [refresh]: the
    identity of pyplot's current figure, whether [plt.pause] raises, and
    the key code that [cv.WaitKey] returns (-1 for none). *)
Record Env := {
  env_gcf : Z;
  env_pause : option exn;
  env_key : Z
}.

Definition do_pause (e : Env) : M unit :=
  call plt_pause;;
  lift (match env_pause e with Some x => Raise x | None => Ret tt end).

(** [cvdisplay] (lines 258-259). *)
Definition cvdisplay (e : Env) : M Z :=
  call (cv_WaitKey 1);;
  mret (env_key e).

(** [refresh] (lines 191-211). *)
Definition refresh (e : Env) : M bool :=
  s ← get_self;
  if negb (figid s =? env_gcf e) then mret false
  else
    call plt_draw;;
    p ← try_ (do_pause e);
    match p with
    | Raise _ => mret false
    | Ret _ =>
        call (cv_ShowImage (window_name s));;
        key ← cvdisplay e;
        mret (if key =? 27 then false else true)
    end.

(** ** Methods that go through [math.sin] and [math.cos] *)

(** [math.pi] and the constant [degToRad] of CPython's [mathmodule.c]. *)
Definition math_pi : float := 0x1.921fb54442d18p+1.
Definition degToRad : float := Eval vm_compute in (math_pi / 180)%float.

(** [math.radians] *)
Definition radians (x : pynum) : result float :=
  x ← py_float x;
  mret (x * degToRad)%float.

(** The literal [.1] of line 186. *)
Definition one_tenth : float := 0x1.999999999999ap-4.

Section Libm.

(** The C library's [sin] and [cos] on doubles. *)
Variables libm_sin libm_cos : float -> float.

(** CPython's wrapper [math_1] with [can_overflow = 0]: a NaN result
    from a non-NaN argument, or an infinite result from a finite
    argument, is a [ValueError]. *)
Definition math_1 (func : float -> float) (x : pynum) : result float :=
  x ← py_float x;
  let r := func x in
  if is_nan r && negb (is_nan x) then Raise ValueError
  else if is_infinity r && is_finite x then Raise ValueError
  else Ret r.

Definition math_sin : pynum -> result float := math_1 libm_sin.
Definition math_cos : pynum -> result float := math_1 libm_cos.

(** The module-level [_rotate] (lines 57-61). *)
Definition _rotate (x y r theta_deg : pynum) : result point :=
  theta ← radians theta_deg;
  dx ← math_cos (PyFloat theta) ≫= (fun c => py_mul r (PyFloat c));
  dy ← math_sin (PyFloat theta) ≫= (fun s => py_mul r (PyFloat s));
  x' ← py_add x dx;
  y' ← py_add y dy;
  mret (x', y').

(** The module-level [rotate] (lines 262-267). *)
Definition rotate (pt : point) (deg : pynum) : result pixel :=
  rad ← radians deg;
  c ← math_cos (PyFloat rad);
  s ← math_sin (PyFloat rad);
  let '(x, y) := pt in
  x' ← (xc ← py_mul x (PyFloat c); ys ← py_mul y (PyFloat s);
        py_sub xc ys ≫= py_int);
  y' ← (xs ← py_mul x (PyFloat s); yc ← py_mul y (PyFloat c);
        py_add xs yc ≫= py_int);
  mret (x', y').

(** [_add_vehicle] (lines 183-188). *)
Definition _add_vehicle (x_mm y_mm theta_deg : pynum) : M unit :=
  '(dx, dy) ← lift (_rotate 0 0 (PyFloat one_tenth) theta_deg);
  let a := {| arrow_x := x_mm; arrow_y := y_mm;
              arrow_dx := dx; arrow_dy := dy |} in
  call (ax_arrow a ROBOT_WIDTH_MM ROBOT_HEIGHT_MM);;
  s ← get_self;
  set_self {| map_size_pixels := map_size_pixels s;
              map_scale_mm_per_pixel := map_scale_mm_per_pixel s;
              window_name := window_name s;
              bgrbytes := bgrbytes s;
              figid := figid s;
              vehicle := Some a |}.

(** [setPose] (lines 169-181); before [_add_vehicle] has run there is
    no attribute [vehicle] to remove. *)
Definition setPose (x_mm y_mm theta_deg : pynum) : M unit :=
  s ← get_self;
  match vehicle s with
  | None => lift (Raise AttributeError)
  | Some a => call (arrow_remove a)
  end;;
  _add_vehicle x_mm y_mm theta_deg.

(** [bytearray(n)] *)
Definition bytearray (n : Z) : result (list byte) :=
  if n <? 0 then Raise ValueError else Ret (replicate (Z.to_nat n) x00).

(** [__init__] (lines 65-111).  [fig] is the identity [id(fig)] of the
    figure that [plt.figure] creates. *)
Definition __init__ (size : Z) (scale : pynum) (name : string) (fig : Z)
    : M unit :=
  b ← lift (bytearray (size * size * 3));
  set_self {| map_size_pixels := size;
              map_scale_mm_per_pixel := scale;
              window_name := name;
              bgrbytes := b;
              figid := 0;
              vehicle := None |};;
  call (cv_CreateImageHeader size size);;
  call (cv_NamedWindow name);;
  call cv_InitFont;;
  call (cv_SetData b (size * 3));;
  call (cv_ShowImage name);;
  call plt_figure;;
  set_self {| map_size_pixels := size;
              map_scale_mm_per_pixel := scale;
              window_name := name;
              bgrbytes := b;
              figid := fig;
              vehicle := None |};;
  call (fig_set_window_title "SLAM 2D");;
  call ax_set_aspect;;
  call ax_set_autoscale_on;;
  map_size_mm ← lift (py_mul scale size);
  call (ax_set_xlim 0 map_size_mm);;
  call (ax_set_ylim 0 map_size_mm);;
  call (ax_set_xlabel "X (mm)");;
  call (ax_set_ylabel "Y (mm)");;
  call (ax_grid false);;
  _add_vehicle 16000 16000 0.

(** [displayRobot] (lines 126-141). *)
Definition displayRobot (pose : pynum * pynum * pynum) (c : color)
    (scale : pynum) (line_thickness : Z) : M unit :=
  let '(x_mm, y_mm, theta_deg) := pose in
  s ← get_self;
  robot_points ← lift (robot_polyline scale);
  robot_points ← lift (mapM (fun pt => rotate pt theta_deg) robot_points);
  x_pix ← lift (mm2pix (map_scale_mm_per_pixel s) x_mm);
  y_pix ← lift (mm2pix (map_scale_mm_per_pixel s) y_mm);
  let robot_points :=
    map (fun pt : pixel => (x_pix + pt.1, y_pix + pt.2)) robot_points in
  call (cv_PolyLine robot_points true c line_thickness).

End Libm.

(** The attributes of an object on which [__init__] has not run yet. *)
Definition blank : World :=
  {| self := {| map_size_pixels := 0; map_scale_mm_per_pixel := 0;
                window_name := ""; bgrbytes := []; figid := 0;
                vehicle := None |};
     calls := [] |}.

(** Values of a correctly rounded [cos] and [sin] at the doubles nearest
    to 0, pi/2 and pi. *)
Definition half_pi : float := 0x1.921fb54442d18p+0.
Definition cos_half_pi : float := 0x1.1a62633145c07p-54.
Definition sin_pi : float := 0x1.1a62633145c07p-53.

Definition sample_cos (x : float) : float :=
  if (x =? 0)%float then 1%float
  else if (x =? half_pi)%float then cos_half_pi
  else if (x =? math_pi)%float then (-1)%float
  else nan.

Definition sample_sin (x : float) : float :=
  if (x =? 0)%float then 0%float
  else if (x =? half_pi)%float then 1%float
  else if (x =? math_pi)%float then sin_pi
  else nan.


(** ** Auxiliary notions used in the statements *)

(** The world after the surface calls [cs] have been made. *)
Definition emit (cs : list Call) (w : World) : World :=
  {| self := self w; calls := calls w ++ cs |}.

(** Each grey byte written three times. *)
Fixpoint triple_bytes (mapbytes : list byte) : list byte :=
  match mapbytes with
  | [] => []
  | v :: rest => v :: v :: v :: triple_bytes rest
  end.

(** The stored raster has the size [__init__] gave it. *)
Definition raster_ok (s : SlamShow) : Prop :=
  0 <= map_size_pixels s /\
  Z.of_nat (length (bgrbytes s)) = 3 * (map_size_pixels s * map_size_pixels s).

Definition with_bgrbytes (b : list byte) (s : SlamShow) : SlamShow :=
  {| map_size_pixels := map_size_pixels s;
     map_scale_mm_per_pixel := map_scale_mm_per_pixel s;
     window_name := window_name s;
     bgrbytes := b;
     figid := figid s;
     vehicle := vehicle s |}.

(** A trajectory point in pixels. *)
Definition pix (scale : pynum) (p : point) : result pixel :=
  x ← mm2pix scale p.1;
  y ← mm2pix scale p.2;
  mret (x, y).

(** The segments joining consecutive pixels. *)
Definition segments (l : list pixel) : list Call :=
  zip_with (fun a b => cv_Line a b TRAJECTORY_COLOR_BGR) l (tail l).

(** [x == z] for an integer [z]: Python compares a float with an integer
    exactly. *)
Definition py_eq_int (x : pynum) (z : Z) : bool :=
  match x with
  | PyInt y => y =? z
  | PyFloat f => finite f && (float_num f =? z * float_den f)
  end.

(** [sf] is a double whose value is the integer [z]. *)
Definition represents (sf : spec_float) (z : Z) : Prop :=
  match z with
  | 0 => exists s, sf = S754_zero s
  | Z.pos p | Z.neg p =>
      exists m e, sf = S754_finite (z <? 0) m e /\
        bounded prec emax m e = true /\
        e <= 0 /\ Z.pos m = Z.pos p * 2 ^ (- e)
  end.

(** The C library returns the correctly rounded cosine and sine at the
    doubles nearest to 0, pi/2 and pi. *)
Definition libm_exact_at_axes (libm_sin libm_cos : float -> float) : Prop :=
  libm_cos 0%float = 1%float /\ libm_sin 0%float = 0%float /\
  libm_cos half_pi = cos_half_pi /\ libm_sin half_pi = 1%float /\
  libm_cos math_pi = (-1)%float /\ libm_sin math_pi = sin_pi.

(** The arrow that [__init__] asks for. *)
Definition seed_arrow : Arrow :=
  {| arrow_x := 16000; arrow_y := 16000;
     arrow_dx := PyFloat one_tenth; arrow_dy := PyFloat 0 |}.

(** The session [__init__] builds, and the calls it makes on the way. *)
Definition fresh_session (size : Z) (scale : pynum) (name : string) (fig : Z)
    : SlamShow :=
  {| map_size_pixels := size; map_scale_mm_per_pixel := scale;
     window_name := name;
     bgrbytes := replicate (Z.to_nat (size * size * 3)) x00;
     figid := fig; vehicle := Some seed_arrow |}.

Definition init_calls (size : Z) (name : string) (map_size_mm : pynum)
    : list Call :=
  [cv_CreateImageHeader size size; cv_NamedWindow name; cv_InitFont;
   cv_SetData (replicate (Z.to_nat (size * size * 3)) x00) (size * 3);
   cv_ShowImage name; plt_figure; fig_set_window_title "SLAM 2D";
   ax_set_aspect; ax_set_autoscale_on;
   ax_set_xlim 0 map_size_mm; ax_set_ylim 0 map_size_mm;
   ax_set_xlabel "X (mm)"; ax_set_ylabel "Y (mm)"; ax_grid false;
   ax_arrow seed_arrow ROBOT_WIDTH_MM ROBOT_HEIGHT_MM].

(** Test sessions: a 2 x 2 and a 1 x 1 map at 10 mm per pixel, figure 77,
    with arbitrary bytes in the raster. *)
Definition session2 : World :=
  {| self := {| map_size_pixels := 2; map_scale_mm_per_pixel := 10;
                window_name := "SLAM"; bgrbytes := replicate 12 xff;
                figid := 77; vehicle := None |};
     calls := [] |}.

Definition session1 : World :=
  {| self := {| map_size_pixels := 1; map_scale_mm_per_pixel := 10;
                window_name := "SLAM"; bgrbytes := [x01; x02; x03];
                figid := 77; vehicle := None |};
     calls := [] |}.

(** One refresh in which the user hits ESC, and one in which nothing
    happens; the current figure is the session's in both. *)
Definition esc_env : Env :=
  {| env_gcf := 77; env_pause := None; env_key := 27 |}.

Definition idle_env : Env :=
  {| env_gcf := 77; env_pause := None; env_key := -1 |}.

Definition refresh_calls (s : SlamShow) : list Call :=
  [plt_draw; plt_pause; cv_ShowImage (window_name s); cv_WaitKey 1].

(** ** Further notions used in the statements *)

(** [waitkey] (lines 213-225).  The loop polls until a key code above -1
    comes back; [keys i] is what the [i]-th poll returns, and [fuel]
    bounds the number of polls ([None] when it runs out).  The line the
    method prints first is returned beside the computation. *)
Definition key_env (k : Z) : Env :=
  {| env_gcf := 0; env_pause := None; env_key := k |}.

Fixpoint waitkey_loop (keys : nat -> Z) (i fuel : nat) : M (option Z) :=
  match fuel with
  | O => mret None
  | S fuel' =>
      key ← cvdisplay (key_env (keys i));
      if -1 <? key then mret (Some key)
      else waitkey_loop keys (S i) fuel'
  end.

Definition waitkey (action : string) (keys : nat -> Z) (fuel : nat)
    : string * M (option Z) :=
  (String.append "Hit any key to " (String.append action " ..."),
   waitkey_loop keys 0 fuel).

(** A scan point, moved by the offset, in pixels. *)
Definition scan_pix (scale : pynum) (offset_mm pt : point) : result pixel :=
  x ← py_add pt.1 offset_mm.1 ≫= mm2pix scale;
  y ← py_add pt.2 offset_mm.2 ≫= mm2pix scale;
  mret (x, y).

Definition circles (c : color) (l : list pixel) : list Call :=
  map (fun p => cv_Circle p SCANPOINT_RADIUS c) l.

(** Arrows created on the axes and not removed since. *)
Fixpoint arrows_live (cs : list Call) : Z :=
  match cs with
  | [] => 0
  | ax_arrow _ _ _ :: rest => arrows_live rest + 1
  | arrow_remove _ :: rest => arrows_live rest - 1
  | _ :: rest => arrows_live rest
  end.

(** The exact value of a finite double rounded toward zero. *)
Definition float_trunc (f : float) : Z :=
  Z.quot (float_num f) (float_den f).

(** A session as [__init__] leaves it, for a 2 x 2 map. *)
Definition posed : World :=
  {| self := fresh_session 2 10 "SLAM" 77; calls := init_calls 2 "SLAM" 20 |}.

(** ** The refresh cycle when any surface call may raise

    Only [plt.pause] sits inside the [try] of [refresh]; [plt.gcf],
    [plt.draw], [cv.ShowImage] and [cv.WaitKey] are outside it.  Here the
    outside world also says, for each of them, whether it raises. *)
Record Surfaces := {
  sf_gcf : result Z;
  sf_draw : option exn;
  sf_pause : option exn;
  sf_show : option exn;
  sf_key : result Z
}.

(** A surface call that is made and then returns or raises. *)
Definition surface_call (c : Call) (x : option exn) : M unit :=
  call c;;
  lift (match x with Some e => Raise e | None => Ret tt end).

(** [refresh] (lines 191-211) over such surfaces. *)
Definition refresh_surfaces (e : Surfaces) : M bool :=
  s ← get_self;
  cur ← lift (sf_gcf e);
  if negb (figid s =? cur) then mret false
  else
    surface_call plt_draw (sf_draw e);;
    p ← try_ (surface_call plt_pause (sf_pause e));
    match p with
    | Raise _ => mret false
    | Ret _ =>
        surface_call (cv_ShowImage (window_name s)) (sf_show e);;
        key ← (call (cv_WaitKey 1);; lift (sf_key e));
        mret (if key =? 27 then false else true)
    end.

(** Surfaces of which only the pause may raise. *)
Definition calm (e : Env) : Surfaces :=
  {| sf_gcf := Ret (env_gcf e); sf_draw := None; sf_pause := env_pause e;
     sf_show := None; sf_key := Ret (env_key e) |}.

(** * Properties *)

(** ** Running the monad *)

Lemma result_bind_ret {A B} (a : A) (k : A -> result B) : (Ret a ≫= k) = k a.
Proof. reflexivity. Qed.

Lemma emit_emit (cs1 cs2 : list Call) (w : World) :
  emit cs2 (emit cs1 w) = emit (cs1 ++ cs2) w.
Proof. unfold emit; simpl. by rewrite app_assoc. Qed.

Lemma emit_nil (w : World) : emit [] w = w.
Proof. destruct w. unfold emit; simpl. by rewrite app_nil_r. Qed.

Lemma call_run (c : Call) (w : World) : call c w = (Ret tt, emit [c] w).
Proof. reflexivity. Qed.

Lemma bind_call {A} (c : Call) (k : unit -> M A) (w : World) :
  (call c ≫= k) w = k tt (emit [c] w).
Proof. reflexivity. Qed.

Lemma bind_lift_ret {A B} (a : A) (k : A -> M B) (w : World) :
  (lift (Ret a) ≫= k) w = k a w.
Proof. reflexivity. Qed.

Lemma bind_lift_raise {A B} (e : exn) (k : A -> M B) (w : World) :
  (lift (Raise e) ≫= k) w = (Raise e, w).
Proof. reflexivity. Qed.

Lemma bind_get_self {A} (k : SlamShow -> M A) (w : World) :
  (get_self ≫= k) w = k (self w) w.
Proof. reflexivity. Qed.

Lemma bind_set_self {A} (s : SlamShow) (k : unit -> M A) (w : World) :
  (set_self s ≫= k) w = k tt {| self := s; calls := calls w |}.
Proof. reflexivity. Qed.

(** ** robot_polyline *)

Lemma robot_polyline_int (scale : Z) :
  robot_polyline scale =
    Ret [(PyInt (-8 * scale), PyInt (5 * scale));
         (PyInt (8 * scale), PyInt 0);
         (PyInt (-8 * scale), PyInt (-8 * scale))].
Proof. reflexivity. Qed.

(** C1: at scale 1 the polyline has three points and spans ROBOT_HEIGHT
    in x, but its last vertex is (-8, -8), built from ROBOT_HEIGHT where
    the first vertex (-8, 5) uses ROBOT_WIDTH: the outline is not
    symmetric about the x-axis and its y-extent is 13, not ROBOT_WIDTH. *)
Theorem robot_polyline_scale_1 :
  robot_polyline 1 =
    Ret [(PyInt (-8), PyInt 5); (PyInt 8, PyInt 0); (PyInt (-8), PyInt (-8))]
  /\ 8 - (-8) = ROBOT_HEIGHT
  /\ 5 - (-8) <> ROBOT_WIDTH
  /\ - 5 <> -8.
Proof. repeat split; vm_compute; congruence. Qed.

(** ** show_velocity *)

(** Whenever the bar length evaluates, [show_velocity] draws the label
    and one rectangle of that signed length, whatever its size. *)
Lemma show_velocity_ret (value valspan : pynum) (label : string) (y len : Z)
    (w : World) :
  (q ← py_div value valspan; p ← py_mul q SENSOR_BAR_MAX_HEIGHT; py_int p)
    = Ret len ->
  show_velocity value valspan label y w =
    (Ret tt,
     emit [cv_PutText (label ++ ":") (SENSOR_TEXT_X, y) SENSOR_LABEL_COLOR_BGR;
           cv_Rectangle (350, y + 3) (350 + len, y - 20 + 3)
             (if py_lt0 value then SENSOR_NEGATIVE_COLOR_BGR
              else SENSOR_POSITIVE_COLOR_BGR)] w).
Proof.
  intros H. unfold show_velocity.
  rewrite bind_call, H, bind_lift_ret, call_run. by rewrite emit_emit.
Qed.

Lemma show_velocity_int (value valspan : Z) (label : string) (y : Z) (w : World) :
  valspan <> 0 ->
  show_velocity value valspan label y w =
    (Ret tt,
     emit [cv_PutText (label ++ ":") (SENSOR_TEXT_X, y) SENSOR_LABEL_COLOR_BGR;
           cv_Rectangle (350, y + 3) (350 + value / valspan * 200, y - 20 + 3)
             (if value <? 0 then SENSOR_NEGATIVE_COLOR_BGR
              else SENSOR_POSITIVE_COLOR_BGR)] w).
Proof.
  intros Hz. apply (show_velocity_ret value valspan).
  unfold py_div, binop. by destruct (Z.eqb_spec valspan 0).
Qed.

(** C7: with an integer reading the quotient [value / valspan] is a
    floor division, so against the span of 1000 the bar is 0 long for a
    reading of 500 (value / span x 200 truncated is 100) and -200 long
    for a reading of -1 (value / span x 200 truncated is 0). *)
Theorem show_velocity_floor_division (label : string) (y : Z) (w : World) :
  show_velocity 500 SENSOR_V_MAX_MM label y w =
    (Ret tt,
     emit [cv_PutText (label ++ ":") (SENSOR_TEXT_X, y) SENSOR_LABEL_COLOR_BGR;
           cv_Rectangle (350, y + 3) (350 + 0, y - 20 + 3)
             SENSOR_POSITIVE_COLOR_BGR] w)
  /\ show_velocity (-1) SENSOR_V_MAX_MM label y w =
    (Ret tt,
     emit [cv_PutText (label ++ ":") (SENSOR_TEXT_X, y) SENSOR_LABEL_COLOR_BGR;
           cv_Rectangle (350, y + 3) (350 + -200, y - 20 + 3)
             SENSOR_NEGATIVE_COLOR_BGR] w)
  /\ Z.quot (500 * SENSOR_BAR_MAX_HEIGHT) SENSOR_V_MAX_MM = 100
  /\ Z.quot (-1 * SENSOR_BAR_MAX_HEIGHT) SENSOR_V_MAX_MM = 0.
Proof.
  split; [|split]; [by rewrite show_velocity_int..|by vm_compute].
Qed.

(** With a float reading the same calls draw the bar of the formula,
    unclamped: 100 for 500.0, 0 for -1.0 (in the negative colour) and 500
    for 2500.0. *)
Lemma show_velocity_float_examples (w : World) :
  show_velocity (PyFloat 500) SENSOR_V_MAX_MM "v" 30 w =
    (Ret tt,
     emit [cv_PutText "v:" (20, 30) SENSOR_LABEL_COLOR_BGR;
           cv_Rectangle (350, 33) (450, 13) SENSOR_POSITIVE_COLOR_BGR] w)
  /\ show_velocity (PyFloat (-1)) SENSOR_V_MAX_MM "v" 30 w =
    (Ret tt,
     emit [cv_PutText "v:" (20, 30) SENSOR_LABEL_COLOR_BGR;
           cv_Rectangle (350, 33) (350, 13) SENSOR_NEGATIVE_COLOR_BGR] w)
  /\ show_velocity (PyFloat 2500) SENSOR_V_MAX_MM "v" 30 w =
    (Ret tt,
     emit [cv_PutText "v:" (20, 30) SENSOR_LABEL_COLOR_BGR;
           cv_Rectangle (350, 33) (850, 13) SENSOR_POSITIVE_COLOR_BGR] w).
Proof.
  split; [|split].
  - by rewrite (show_velocity_ret _ _ _ _ 100) by (vm_compute; reflexivity).
  - by rewrite (show_velocity_ret _ _ _ _ 0) by (vm_compute; reflexivity).
  - by rewrite (show_velocity_ret _ _ _ _ 500) by (vm_compute; reflexivity).
Qed.

(** ** displayMap *)

Lemma store_stride_cons (cur step : nat) (vals : list byte) (x : byte)
    (b : list byte) :
  store_stride (S cur) step vals (x :: b) = x :: store_stride cur step vals b.
Proof.
  revert cur b. induction vals as [|v vals IH]; intros cur b; [done|].
  simpl. apply (IH (cur + step)%nat).
Qed.

(** One pass over a pixel: the pass that starts at channel [c] writes
    byte [c] of each group of three. *)
Lemma store_stride_3 (v : byte) (vals : list byte) (b0 b1 b2 : byte)
    (rest : list byte) :
  store_stride 0 3 (v :: vals) (b0 :: b1 :: b2 :: rest) =
    v :: b1 :: b2 :: store_stride 0 3 vals rest
  /\ store_stride 1 3 (v :: vals) (b0 :: b1 :: b2 :: rest) =
    b0 :: v :: b2 :: store_stride 1 3 vals rest
  /\ store_stride 2 3 (v :: vals) (b0 :: b1 :: b2 :: rest) =
    b0 :: b1 :: v :: store_stride 2 3 vals rest.
Proof. repeat split; simpl; by rewrite !store_stride_cons. Qed.

Lemma store_stride_length (cur step : nat) (vals b : list byte) :
  length (store_stride cur step vals b) = length b.
Proof.
  revert cur b. induction vals as [|v vals IH]; intros cur b; [done|].
  simpl. by rewrite IH, length_insert.
Qed.

Lemma store_three_passes (vals b : list byte) :
  length b = (3 * length vals)%nat ->
  store_stride 2 3 vals (store_stride 1 3 vals (store_stride 0 3 vals b)) =
    triple_bytes vals.
Proof.
  revert b. induction vals as [|v vals IH]; intros b Hb.
  - destruct b; [done|simpl in Hb; lia].
  - destruct b as [|b0 [|b1 [|b2 rest]]]; simpl in Hb; try lia.
    destruct (store_stride_3 v vals b0 b1 b2 rest) as (-> & _ & _).
    destruct (store_stride_3 v vals v b1 b2 (store_stride 0 3 vals rest))
      as (_ & -> & _).
    destruct (store_stride_3 v vals v v b2
                (store_stride 1 3 vals (store_stride 0 3 vals rest)))
      as (_ & _ & ->).
    rewrite IH by lia. done.
Qed.

Lemma slice_length_3 (n c : nat) :
  (c < 3)%nat -> slice_length (3 * n) c 3 = n.
Proof.
  intros Hc. unfold slice_length.
  destruct (Nat.ltb_spec c (3 * n)) as [H|H]; [|lia].
  replace (3 * n - c - 1)%nat with ((2 - c) + (n - 1) * 3)%nat by lia.
  rewrite Nat.div_add by lia. rewrite Nat.div_small by lia. lia.
Qed.

Lemma setslice_ext_ok (c : nat) (vals b : list byte) :
  (c < 3)%nat -> length b = (3 * length vals)%nat ->
  setslice_ext c 3 b vals = Ret (store_stride c 3 vals b).
Proof.
  intros Hc Hb. unfold setslice_ext. rewrite Hb, slice_length_3 by done.
  destruct vals as [|v vals].
  - destruct b; [done|simpl in Hb; lia].
  - simpl length. rewrite Nat.eqb_refl. done.
Qed.

Lemma setslice_ext_mismatch (n : nat) (vals b : list byte) :
  length b = (3 * n)%nat -> vals <> [] -> length vals <> n ->
  setslice_ext 0 3 b vals = Raise ValueError.
Proof.
  intros Hb Hne Hlen. unfold setslice_ext. rewrite Hb, slice_length_3 by lia.
  destruct vals as [|v vals]; [done|]. simpl length.
  destruct (Nat.eqb_spec (S (length vals)) n); [done|]. done.
Qed.

Lemma set_bgr_slice_ok (c : nat) (vals : list byte) (w : World) :
  (c < 3)%nat -> length (bgrbytes (self w)) = (3 * length vals)%nat ->
  set_bgr_slice c vals w =
    (Ret tt,
     {| self := with_bgrbytes (store_stride c 3 vals (bgrbytes (self w))) (self w);
        calls := calls w |}).
Proof.
  intros Hc Hb. unfold set_bgr_slice.
  rewrite bind_get_self, setslice_ext_ok, bind_lift_ret by done. done.
Qed.

Lemma displayMap_ok (vals : list byte) (w : World) :
  length (bgrbytes (self w)) = (3 * length vals)%nat ->
  displayMap vals w =
    (Ret tt,
     emit [cv_SetData (triple_bytes vals) (map_size_pixels (self w) * 3)]
       {| self := with_bgrbytes (triple_bytes vals) (self w);
          calls := calls w |}).
Proof.
  intros Hb. unfold displayMap.
  unfold mbind at 1, M_bind. rewrite set_bgr_slice_ok by (done || lia).
  unfold mbind at 1, M_bind. rewrite set_bgr_slice_ok
    by (simpl; rewrite ?store_stride_length; done || lia).
  unfold mbind at 1, M_bind. rewrite set_bgr_slice_ok
    by (simpl; rewrite ?store_stride_length; done || lia).
  rewrite bind_get_self. simpl. rewrite store_three_passes by done. done.
Qed.

Lemma triple_bytes_length (vals : list byte) :
  length (triple_bytes vals) = (3 * length vals)%nat.
Proof. induction vals as [|v vals IH]; [done|]. simpl. lia. Qed.

Lemma triple_bytes_lookup (vals : list byte) (k : nat) (v : byte) :
  vals !! k = Some v ->
  triple_bytes vals !! (3 * k)%nat = Some v /\
  triple_bytes vals !! (3 * k + 1)%nat = Some v /\
  triple_bytes vals !! (3 * k + 2)%nat = Some v.
Proof.
  revert k. induction vals as [|x vals IH]; intros k Hk; [done|].
  destruct k as [|k].
  - simpl in Hk. injection Hk as ->. done.
  - simpl in Hk. apply IH in Hk.
    replace (3 * S k)%nat with (S (S (S (3 * k)))) by lia.
    exact Hk.
Qed.

(** [displayMap] keeps the raster at its size. *)
Lemma displayMap_keeps_raster_ok (w : World) (mapbytes : list byte) :
  raster_ok (self w) ->
  Z.of_nat (length mapbytes) =
    map_size_pixels (self w) * map_size_pixels (self w) ->
  raster_ok (self (displayMap mapbytes w).2).
Proof.
  intros [Hsize Hlen] Hmap. rewrite displayMap_ok by lia.
  split; [done|]. simpl. rewrite triple_bytes_length. lia.
Qed.

(** C3: on a session whose raster has its 3 x size x size bytes, a grey
    buffer of size x size bytes is composited without error; the new
    raster is each grey byte three times over (so bytes 3k, 3k+1 and 3k+2
    are byte k of the buffer), has 3 x size x size bytes, and owes nothing
    to what the raster held before. *)
Theorem displayMap_composites (w : World) (mapbytes : list byte) :
  raster_ok (self w) ->
  Z.of_nat (length mapbytes) =
    map_size_pixels (self w) * map_size_pixels (self w) ->
  displayMap mapbytes w =
    (Ret tt,
     emit [cv_SetData (triple_bytes mapbytes) (map_size_pixels (self w) * 3)]
       {| self := with_bgrbytes (triple_bytes mapbytes) (self w);
          calls := calls w |})
  /\ Z.of_nat (length (triple_bytes mapbytes)) =
       3 * (map_size_pixels (self w) * map_size_pixels (self w))
  /\ forall (k : nat) (v : byte), mapbytes !! k = Some v ->
       triple_bytes mapbytes !! (3 * k)%nat = Some v /\
       triple_bytes mapbytes !! (3 * k + 1)%nat = Some v /\
       triple_bytes mapbytes !! (3 * k + 2)%nat = Some v.
Proof.
  intros [Hsize Hlen] Hmap. split; [|split].
  - apply displayMap_ok. lia.
  - rewrite triple_bytes_length. lia.
  - apply triple_bytes_lookup.
Qed.

Lemma displayMap_composites_witness :
  displayMap [x0a; x14; x1e; x28] session2 =
    (Ret tt,
     {| self := with_bgrbytes
                  [x0a; x0a; x0a; x14; x14; x14; x1e; x1e; x1e; x28; x28; x28]
                  (self session2);
        calls := [cv_SetData
                    [x0a; x0a; x0a; x14; x14; x14; x1e; x1e; x1e; x28; x28; x28]
                    6] |}).
Proof.
  refine (proj1 (displayMap_composites session2 [x0a; x14; x1e; x28] _ _)).
  - split; [simpl; lia | reflexivity].
  - reflexivity.
Defined.

(** C10 (as amended): on a session whose raster has its 3 x size x size
    bytes, a non-empty grey buffer of any other length than size x size
    makes [displayMap] raise [ValueError] at its first assignment, with
    the session and the call trace exactly as they were. *)
Theorem displayMap_length_mismatch (w : World) (mapbytes : list byte) :
  raster_ok (self w) ->
  mapbytes <> [] ->
  Z.of_nat (length mapbytes) <>
    map_size_pixels (self w) * map_size_pixels (self w) ->
  displayMap mapbytes w = (Raise ValueError, w).
Proof.
  intros [Hsize Hlen] Hne Hmap. unfold displayMap, set_bgr_slice.
  unfold mbind at 1, M_bind. rewrite bind_get_self.
  rewrite (setslice_ext_mismatch
             (Z.to_nat (map_size_pixels (self w) * map_size_pixels (self w))))
    by (done || lia).
  by rewrite bind_lift_raise.
Qed.

Lemma displayMap_length_mismatch_witness :
  displayMap [x0a; x14; x1e] session2 = (Raise ValueError, session2).
Proof.
  apply (displayMap_length_mismatch session2 [x0a; x14; x1e]).
  - split; [simpl; lia | reflexivity].
  - discriminate.
  - simpl. lia.
Defined.

(** C10 (as stated) fails on an empty buffer: the three assignments then
    delete bytes 0, 1 and nothing of a 1 x 1 raster, no error is raised,
    and the one remaining byte is handed to [cv.SetData]. *)
Lemma displayMap_empty_buffer_shrinks :
  raster_ok (self session1)
  /\ Z.of_nat (length (@nil byte)) <>
       map_size_pixels (self session1) * map_size_pixels (self session1)
  /\ displayMap [] session1 =
       (Ret tt,
        {| self := with_bgrbytes [x02] (self session1);
           calls := [cv_SetData [x02] 3] |}).
Proof. split; [split; [simpl; lia | reflexivity] | split; [simpl; lia | reflexivity]]. Qed.

(** ** displayTrajectory *)

Lemma trajectory_step_shift (p : point) (t : list point) (k : nat) :
  (1 <= k)%nat -> trajectory_step (p :: t) (S k) = trajectory_step t k.
Proof.
  intros Hk. unfold trajectory_step, py_index.
  replace (S k - 1)%nat with (S (k - 1)) by lia. done.
Qed.

(** The turns after the first are the loop over the tail. *)
Lemma for_each_shift (p : point) (t : list point) (n a : nat) (w : World) :
  (1 <= a)%nat ->
  for_each (seq (S a) n) (trajectory_step (p :: t)) w =
    for_each (seq a n) (trajectory_step t) w.
Proof.
  revert a w. induction n as [|n IH]; intros a w Ha; [done|].
  simpl. rewrite trajectory_step_shift by done.
  unfold mbind, M_bind. destruct (trajectory_step t a w) as [[[]|e] w']; [|done].
  apply IH. lia.
Qed.

Lemma trajectory_step_first (x1 y1 x2 y2 : pynum) (t : list point)
    (a1 b1 a2 b2 : Z) (w : World) :
  mm2pix (map_scale_mm_per_pixel (self w)) x1 = Ret a1 ->
  mm2pix (map_scale_mm_per_pixel (self w)) y1 = Ret b1 ->
  mm2pix (map_scale_mm_per_pixel (self w)) x2 = Ret a2 ->
  mm2pix (map_scale_mm_per_pixel (self w)) y2 = Ret b2 ->
  trajectory_step ((x1, y1) :: (x2, y2) :: t) 1 w =
    (Ret tt, emit [cv_Line (a1, b1) (a2, b2) TRAJECTORY_COLOR_BGR] w).
Proof.
  intros Hx Hy Hx' Hy'. unfold trajectory_step.
  change (py_index ((x1, y1) :: (x2, y2) :: t) (1 - 1)) with (Ret (x1, y1)).
  change (py_index ((x1, y1) :: (x2, y2) :: t) 1) with (Ret (x2, y2)).
  rewrite !bind_lift_ret, bind_get_self.
  rewrite Hx, bind_lift_ret, Hy, bind_lift_ret, Hx', bind_lift_ret, Hy',
    bind_lift_ret, call_run.
  done.
Qed.

Lemma pix_inv (scale : pynum) (p : point) (q : pixel) :
  pix scale p = Ret q ->
  mm2pix scale p.1 = Ret q.1 /\ mm2pix scale p.2 = Ret q.2.
Proof.
  unfold pix. destruct (mm2pix scale p.1) as [x|]; [|done].
  destruct (mm2pix scale p.2) as [y|]; [|done].
  simpl. intros [= <-]. done.
Qed.

Lemma mapM_cons_inv (scale : pynum) (p : point) (t : list point)
    (l : list pixel) :
  mapM (pix scale) (p :: t) = Ret l ->
  exists q l', l = q :: l' /\ pix scale p = Ret q /\ mapM (pix scale) t = Ret l'.
Proof.
  simpl. destruct (pix scale p) as [q|]; [|done].
  destruct (mapM (pix scale) t) as [l'|]; [|done].
  simpl. intros [= <-]. eauto.
Qed.

Lemma mapM_pix_length (scale : pynum) (t : list point) (l : list pixel) :
  mapM (pix scale) t = Ret l -> length l = length t.
Proof.
  revert l. induction t as [|p t IH]; intros l H.
  - by injection H as <-.
  - apply mapM_cons_inv in H as (q & l' & -> & _ & H). simpl. f_equal. eauto.
Qed.

Lemma segments_length (l : list pixel) :
  length (segments l) = (length l - 1)%nat.
Proof.
  unfold segments. rewrite length_zip_with. destruct l as [|a l]; [done|].
  simpl tail. simpl length. lia.
Qed.

Lemma displayTrajectory_segments (trajectory : list point)
    (pixels : list pixel) (w : World) :
  mapM (pix (map_scale_mm_per_pixel (self w))) trajectory = Ret pixels ->
  displayTrajectory trajectory w = (Ret tt, emit (segments pixels) w).
Proof.
  revert pixels w. induction trajectory as [|p t IH]; intros pixels w H.
  - injection H as <-. by rewrite emit_nil.
  - apply mapM_cons_inv in H as (q & l' & -> & Hp & Ht).
    destruct t as [|p' t].
    + injection Ht as <-. by rewrite emit_nil.
    + pose proof Ht as Ht'.
      apply mapM_cons_inv in Ht as (q' & l'' & -> & Hp' & Ht).
      unfold displayTrajectory. simpl length.
      replace (S (S (length t)) - 1)%nat with (S (length t)) by lia.
      simpl seq. simpl for_each.
      apply pix_inv in Hp as [Hx Hy]. apply pix_inv in Hp' as [Hx' Hy'].
      destruct p as [x1 y1], p' as [x2 y2], q as [a1 b1], q' as [a2 b2].
      simpl in Hx, Hy, Hx', Hy'.
      unfold mbind at 1, M_bind.
      rewrite (trajectory_step_first _ _ _ _ _ _ _ _ _ _ Hx Hy Hx' Hy').
      rewrite for_each_shift by lia.
      specialize (IH _ (emit [cv_Line (a1, b1) (a2, b2) TRAJECTORY_COLOR_BGR] w) Ht').
      unfold displayTrajectory in IH. simpl length in IH.
      replace (S (length t) - 1)%nat with (length t) in IH by lia.
      rewrite IH, emit_emit. done.
Qed.

(** C8: when every point of the trajectory converts to pixels, the
    renderer returns after drawing exactly the segments between
    consecutive points, in input order, [len - 1] of them (none for a list
    shorter than two); the empty and the one-point list draw nothing in
    any case, and [p0, p1, p2] draws p0-p1 then p1-p2. *)
Theorem displayTrajectory_emits_segments :
  (forall (w : World) (trajectory : list point) (pixels : list pixel),
     mapM (pix (map_scale_mm_per_pixel (self w))) trajectory = Ret pixels ->
     displayTrajectory trajectory w = (Ret tt, emit (segments pixels) w)
     /\ length (segments pixels) = Nat.max (length trajectory - 1) 0)
  /\ (forall w : World, displayTrajectory [] w = (Ret tt, w))
  /\ (forall (w : World) (p : point), displayTrajectory [p] w = (Ret tt, w))
  /\ (forall (w : World) (p0 p1 p2 : point) (q0 q1 q2 : pixel),
        pix (map_scale_mm_per_pixel (self w)) p0 = Ret q0 ->
        pix (map_scale_mm_per_pixel (self w)) p1 = Ret q1 ->
        pix (map_scale_mm_per_pixel (self w)) p2 = Ret q2 ->
        displayTrajectory [p0; p1; p2] w =
          (Ret tt,
           emit [cv_Line q0 q1 TRAJECTORY_COLOR_BGR;
                 cv_Line q1 q2 TRAJECTORY_COLOR_BGR] w)).
Proof.
  split; [|split; [|split]].
  - intros w trajectory pixels H. split.
    + by apply displayTrajectory_segments.
    + rewrite segments_length, (mapM_pix_length _ _ _ H). lia.
  - done.
  - done.
  - intros w p0 p1 p2 q0 q1 q2 H0 H1 H2.
    apply (displayTrajectory_segments _ [q0; q1; q2]).
    simpl. by rewrite H0, H1, H2.
Qed.

Lemma displayTrajectory_emits_segments_witness :
  displayTrajectory
    [(PyInt 10, PyInt 20); (PyInt 30, PyInt 45); (PyFloat 55.5, PyInt (-60))]
    session2 =
    (Ret tt,
     emit [cv_Line (1, 2) (3, 4) TRAJECTORY_COLOR_BGR;
           cv_Line (3, 4) (5, -6) TRAJECTORY_COLOR_BGR] session2).
Proof.
  apply (proj1 displayTrajectory_emits_segments session2 _ [(1, 2); (3, 4); (5, -6)]).
  vm_compute. reflexivity.
Defined.

(** ** refresh *)

(** The three ways through [refresh]. *)
Lemma refresh_run (e : Env) (w : World) :
  refresh e w =
    if negb (figid (self w) =? env_gcf e) then (Ret false, w)
    else match env_pause e with
         | Some x => (Ret false, emit [plt_draw; plt_pause] w)
         | None =>
             (Ret (if env_key e =? 27 then false else true),
              emit (refresh_calls (self w)) w)
         end.
Proof.
  unfold refresh. rewrite bind_get_self.
  destruct (negb (figid (self w) =? env_gcf e)); [done|].
  rewrite bind_call.
  unfold try_, do_pause, mbind, M_bind, call, lift, emit, cvdisplay,
    refresh_calls, mret, M_ret; simpl.
  destruct (env_pause e); simpl; rewrite <- ?app_assoc; done.
Qed.

(** C2 (as amended): [refresh] keeps no RUNNING / STOPPED state.  It
    leaves the session as it was, and returns [False] exactly when, in
    that very call, the current figure is not the session's, the pause
    raises, or the key polled is 27.  So after any call, one that saw ESC
    included, a call in which the figure matches, the pause completes
    and the key is not 27 returns [True] and makes the four surface calls
    again. *)
Theorem refresh_is_stateless (e : Env) (w : World) :
  self (refresh e w).2 = self w
  /\ ((refresh e w).1 = Ret false <->
        figid (self w) <> env_gcf e \/ env_pause e <> None \/ env_key e = 27)
  /\ (forall e' : Env,
        figid (self w) = env_gcf e' -> env_pause e' = None ->
        env_key e' <> 27 ->
        refresh e' (refresh e w).2 =
          (Ret true, emit (refresh_calls (self w)) (refresh e w).2)).
Proof.
  assert (self (refresh e w).2 = self w) as Hself.
  { rewrite refresh_run.
    destruct (negb _); [done|]. by destruct (env_pause e). }
  split; [done|]. split.
  - rewrite refresh_run.
    destruct (Z.eqb_spec (figid (self w)) (env_gcf e)) as [Hf|Hf]; simpl.
    + destruct (env_pause e) as [x|]; simpl.
      * split; [intros _|done]. right. left. done.
      * destruct (Z.eqb_spec (env_key e) 27) as [Hk|Hk]; simpl.
        -- split; [intros _|done]. right. right. done.
        -- split; [done|]. intros [?|[?|?]]; done.
    + split; [intros _|done]. by left.
  - intros e' Hf Hp Hk. rewrite (refresh_run e'), Hself, Hf, Z.eqb_refl, Hp.
    simpl. by destruct (Z.eqb_spec (env_key e') 27).
Qed.

Lemma refresh_is_stateless_witness :
  refresh idle_env (refresh esc_env session2).2 =
    (Ret true,
     emit (refresh_calls (self session2)) (refresh esc_env session2).2).
Proof.
  apply (proj2 (proj2 (refresh_is_stateless esc_env session2)) idle_env);
    [reflexivity | reflexivity | discriminate].
Defined.

(** C2 (as stated) fails: on a session whose refresh has just seen ESC
    and returned [False], the next refresh, with no key pressed, returns
    [True] and makes four more calls on the display surfaces. *)
Lemma refresh_after_esc_continues :
  env_key esc_env = 27
  /\ refresh esc_env session2 =
       (Ret false, emit (refresh_calls (self session2)) session2)
  /\ refresh idle_env (emit (refresh_calls (self session2)) session2) =
       (Ret true,
        emit (refresh_calls (self session2) ++ refresh_calls (self session2))
          session2)
  /\ calls (emit (refresh_calls (self session2) ++ refresh_calls (self session2))
              session2)
       <> calls (emit (refresh_calls (self session2)) session2).
Proof. repeat split. discriminate. Qed.

(** ** mm2pix *)

Lemma float_pos_nonzero (f : float) :
  (0 <? f)%float = true -> (f =? 0)%float = false.
Proof.
  rewrite FloatAxioms.ltb_spec, FloatAxioms.eqb_spec. unfold SFltb, SFeqb.
  change (Prim2SF 0) with (S754_zero false).
  destruct (Prim2SF f) as [s|s| |s m e]; simpl; try done; destruct s; done.
Qed.

(** [int] of a finite float is its exact value rounded toward zero. *)
Lemma py_int_float_quot (f : float) :
  finite f = true ->
  py_int (PyFloat f) = Ret (Z.quot (float_num f) (float_den f)).
Proof.
  unfold finite, py_int, float_num, float_den.
  destruct (Prim2SF f) as [s|s| |s m e]; try done; intros _.
  f_equal. destruct e as [|k|k].
  - simpl. rewrite Z.mul_1_r, Z.quot_1_r. done.
  - rewrite Z.max_l by lia. replace (Z.max (- Z.pos k) 0) with 0 by lia.
    rewrite Z.pow_0_r, Z.quot_1_r, Z.shiftl_mul_pow2 by lia. done.
  - rewrite Z.max_r by lia.
    replace (Z.max (- Z.neg k) 0) with (Z.pos k) by lia.
    rewrite Z.pow_0_r, Z.mul_1_r.
    change (Z.neg k) with (- Z.pos k).
    rewrite Z.shiftl_opp_r, Z.shiftr_div_pow2 by lia.
    assert (0 < 2 ^ Z.pos k) by (apply Z.pow_pos_nonneg; lia).
    destruct s; simpl cond_Zopp.
    + rewrite Z.quot_opp_l by lia. rewrite Z.quot_div_nonneg by lia. done.
    + rewrite Z.quot_div_nonneg by lia. done.
Qed.

Lemma mm2pix_float_quot (scale mm : pynum) (fs fm : float) :
  py_float scale = Ret fs ->
  (0 <? fs)%float = true ->
  py_float mm = Ret fm ->
  finite (fm / fs) = true ->
  mm2pix scale mm =
    Ret (Z.quot (float_num (fm / fs)) (float_den (fm / fs))).
Proof.
  intros Hs Hpos Hm Hfin. unfold mm2pix. rewrite Hs. simpl.
  unfold py_div, binop.
  assert (py_float mm ≫= (fun x => py_float (PyFloat fs) ≫= fun y =>
            if (y =? 0)%float then Raise ZeroDivisionError
            else Ret (PyFloat (x / y))) = Ret (PyFloat (fm / fs))) as H.
  { rewrite Hm. simpl. by rewrite float_pos_nonzero. }
  destruct mm as [z|f]; rewrite H; simpl; by apply py_int_float_quot.
Qed.

(** C4: for a scale above zero and a length whose quotient by it is a
    finite double, [mm2pix] returns that quotient rounded toward zero
    ([Z.quot] of its exact value), not floored: 1000 mm at 10 mm per
    pixel is pixel 100, and -5 mm is pixel 0 where the floor is -1.
    Being a function of its two arguments it is deterministic. *)
Theorem mm2pix_truncates :
  (forall (scale mm : pynum) (fs fm : float),
     py_float scale = Ret fs ->
     (0 <? fs)%float = true ->
     py_float mm = Ret fm ->
     finite (fm / fs) = true ->
     mm2pix scale mm =
       Ret (Z.quot (float_num (fm / fs)) (float_den (fm / fs))))
  /\ mm2pix 10 1000 = Ret 100
  /\ mm2pix 10 (-5) = Ret 0
  /\ Z.quot (float_num (-5 / 10)) (float_den (-5 / 10)) = 0
  /\ Z.div (float_num (-5 / 10)) (float_den (-5 / 10)) = -1.
Proof.
  split; [exact mm2pix_float_quot|].
  repeat split; vm_compute; reflexivity.
Qed.

Lemma mm2pix_truncates_witness :
  mm2pix 10 (PyFloat (-25.5)) = Ret (-2).
Proof.
  exact (proj1 mm2pix_truncates 10 (PyFloat (-25.5)) 10%float (-25.5)%float
           eq_refl eq_refl eq_refl eq_refl).
Defined.

(** ** Integers below 2^53 as doubles *)
Lemma digits2_pos_size (p : positive) : digits2_pos p = Pos.size p.
Proof. induction p; simpl; congruence. Qed.

Lemma digits2_pos_iter_xO (p k : positive) :
  Z.pos (digits2_pos (Pos.iter xO p k)) = Z.pos (digits2_pos p) + Z.pos k.
Proof.
  induction k as [|k IH] using Pos.peano_ind.
  - simpl. lia.
  - rewrite Pos.iter_succ. simpl digits2_pos. lia.
Qed.

Lemma pos_iter_xO (p k : positive) :
  Z.pos (Pos.iter xO p k) = Z.pos p * 2 ^ Z.pos k.
Proof.
  induction k as [|k IH] using Pos.peano_ind.
  - simpl. lia.
  - rewrite Pos.iter_succ, Pos2Z.inj_xO, IH, Pos2Z.inj_succ, Z.pow_succ_r by lia. lia.
Qed.

Lemma digits2_pos_bound (p : positive) :
  Z.pos p < 2 ^ 53 -> Z.pos (digits2_pos p) <= 53.
Proof.
  intros Hp. rewrite digits2_pos_size.
  destruct (Z_le_gt_dec (Z.pos (Pos.size p)) 53) as [|Hgt]; [done|exfalso].
  pose proof (Pos.size_le p) as Hle.
  assert (2 ^ 54 <= 2 ^ Z.pos (Pos.size p)) by (apply Z.pow_le_mono_r; lia).
  assert (Z.pos (2 ^ Pos.size p) = 2 ^ Z.pos (Pos.size p)) as E
    by (by rewrite Pos2Z.inj_pow).
  assert (Z.pos (2 ^ Pos.size p) <= Z.pos p~0) by (apply Pos2Z.pos_le_pos; done).
  lia.
Qed.

(** Rounding a mantissa that is already canonical changes nothing. *)
Lemma binary_round_aux_canonical (s : bool) (m : positive) (e : Z) :
  bounded prec emax m e = true ->
  binary_round_aux prec emax s (Z.pos m) e loc_Exact = S754_finite s m e.
Proof.
  unfold bounded, canonical_mantissa. intros [Hc He]%andb_prop.
  apply Z.eqb_eq in Hc.
  unfold binary_round_aux, shr_fexp. simpl Zdigits2. rewrite Hc, Z.sub_diag.
  simpl. rewrite Hc, Z.sub_diag. simpl. by rewrite He.
Qed.

Lemma binary_round_small (s : bool) (p : positive) :
  Z.pos p < 2 ^ 53 ->
  exists m e,
    binary_round prec emax s p 0 = S754_finite s m e /\
    bounded prec emax m e = true /\
    e <= 0 /\ Z.pos m = Z.pos p * 2 ^ (- e).
Proof.
  intros Hp. pose proof (digits2_pos_bound p Hp) as Hd.
  unfold binary_round, shl_align.
  rewrite Z.add_0_r, Z.sub_0_r.
  assert (fexp prec emax (Z.pos (digits2_pos p)) = Z.pos (digits2_pos p) - 53) as Hf.
  { unfold fexp, SpecFloat.emin, prec, emax. lia. }
  rewrite Hf.
  destruct (Z.pos (digits2_pos p) - 53) as [|d|d] eqn:E; [| lia |].
  - exists p, 0. split; [|split; [|split]]; [| |lia|simpl; lia].
    + apply binary_round_aux_canonical.
      unfold bounded, canonical_mantissa. rewrite Z.add_0_r, Hf. done.
    + unfold bounded, canonical_mantissa. rewrite Z.add_0_r, Hf. done.
  - assert (bounded prec emax (Pos.iter xO p d) (Z.neg d) = true) as Hb.
    { unfold bounded, canonical_mantissa. rewrite digits2_pos_iter_xO.
      apply andb_true_intro. split; [apply Z.eqb_eq|apply Z.leb_le].
      - unfold fexp, SpecFloat.emin, prec, emax. lia.
      - unfold prec, emax. lia. }
    exists (Pos.iter xO p d), (Z.neg d). split; [|split; [|split]]; [|done|lia|].
    + by apply binary_round_aux_canonical.
    + rewrite pos_iter_xO. done.
Qed.

(** The double nearest to an integer below 2^53 in magnitude is the
    integer itself. *)
Lemma py_float_small (z : Z) :
  Z.abs z < 2 ^ 53 ->
  exists f, py_float (PyInt z) = Ret f /\
    match z with
    | 0 => Prim2SF f = S754_zero false
    | Z.pos p | Z.neg p =>
        exists m e, Prim2SF f = S754_finite (z <? 0) m e /\
          bounded prec emax m e = true /\
          e <= 0 /\ Z.pos m = Z.pos p * 2 ^ (- e)
    end.
Proof.
  intros Hz. unfold py_float, binary_normalize.
  destruct z as [|p|p].
  - eexists; split; [done|]. done.
  - destruct (binary_round_small false p) as (m & e & -> & Hb & He & Hm); [lia|].
    eexists; split; [done|]. exists m, e.
    rewrite Prim2SF_SF2Prim by done. done.
  - destruct (binary_round_small true p) as (m & e & -> & Hb & He & Hm); [lia|].
    eexists; split; [done|]. exists m, e.
    rewrite Prim2SF_SF2Prim by done. done.
Qed.

(** Multiplying a finite double by 1.0 is exact. *)
Lemma SF64mul_one (s : bool) (m : positive) (e : Z) :
  bounded prec emax m e = true ->
  SF64mul (S754_finite s m e) (Prim2SF 1) = S754_finite s m e.
Proof.
  intros Hb. pose proof Hb as Hb'.
  unfold bounded, canonical_mantissa in Hb'. apply andb_prop in Hb' as [Hc He].
  apply Z.eqb_eq in Hc.
  change (Prim2SF 1) with (S754_finite false 4503599627370496 (-52)).
  unfold SF64mul, SFmul. rewrite xorb_false_r.
  rewrite Pos.mul_comm.
  change (4503599627370496 * m)%positive with (Pos.iter xO m 52).
  unfold binary_round_aux at 1.
  assert (shr_fexp prec emax (Z.pos (Pos.iter xO m 52)) (e + -52) loc_Exact
          = ({| shr_m := Z.pos m; shr_r := false; shr_s := false |}, e)) as ->.
  { unfold shr_fexp.
    unfold Zdigits2. rewrite digits2_pos_iter_xO.
    replace (Z.pos (digits2_pos m) + 52 + (e + -52)) with (Z.pos (digits2_pos m) + e) by lia.
    rewrite Hc. replace (e - (e + -52)) with 52 by lia.
    unfold shr. replace (e + -52 + 52) with e by lia. f_equal. }
  simpl shr_m. simpl loc_of_shr_record. simpl round_nearest_even.
  unfold shr_fexp. simpl Zdigits2. rewrite Hc, Z.sub_diag. simpl. by rewrite He.
Qed.


Lemma py_float_represents (z : Z) :
  Z.abs z < 2 ^ 53 ->
  exists f, py_float (PyInt z) = Ret f /\ represents (Prim2SF f) z.
Proof.
  intros Hz. destruct (py_float_small z Hz) as (f & Hf & H).
  exists f. split; [done|]. destruct z; simpl; [eauto|done..].
Qed.

Lemma mul_one_represents (f : float) (z : Z) :
  represents (Prim2SF f) z -> represents (Prim2SF (f * 1)) z.
Proof.
  rewrite mul_spec. destruct z as [|p|p]; simpl.
  - intros [s ->].
    change (Prim2SF 1) with (S754_finite false 4503599627370496 (-52)).
    eexists. reflexivity.
  - intros (m & e & -> & Hb & H). rewrite SF64mul_one by done. eauto.
  - intros (m & e & -> & Hb & H). rewrite SF64mul_one by done. eauto.
Qed.

Lemma mul_zero_represents (f : float) (z : Z) :
  represents (Prim2SF f) z -> exists s, Prim2SF (f * 0) = S754_zero s.
Proof.
  rewrite mul_spec. change (Prim2SF 0) with (S754_zero false).
  destruct z as [|p|p]; simpl.
  - intros [s ->]. eauto.
  - intros (m & e & -> & _). eauto.
  - intros (m & e & -> & _). eauto.
Qed.

Lemma sub_zero_represents (f g : float) (z : Z) (s : bool) :
  represents (Prim2SF f) z -> Prim2SF g = S754_zero s ->
  represents (Prim2SF (f - g)) z.
Proof.
  rewrite sub_spec. intros H ->. destruct z as [|p|p]; simpl in *.
  - destruct H as [s' ->]. destruct s', s; simpl; eauto.
  - destruct H as (m & e & -> & H). simpl. eauto.
  - destruct H as (m & e & -> & H). simpl. eauto.
Qed.

Lemma zero_add_represents (f g : float) (z : Z) (s : bool) :
  Prim2SF g = S754_zero s -> represents (Prim2SF f) z ->
  represents (Prim2SF (g + f)) z.
Proof.
  rewrite add_spec. intros -> H. destruct z as [|p|p]; simpl in *.
  - destruct H as [s' ->]. destruct s', s; simpl; eauto.
  - destruct H as (m & e & -> & H). simpl. eauto.
  - destruct H as (m & e & -> & H). simpl. eauto.
Qed.

Lemma py_int_represents (f : float) (z : Z) :
  represents (Prim2SF f) z -> py_int (PyFloat f) = Ret z.
Proof.
  unfold py_int. destruct z as [|p|p]; simpl.
  - intros [s ->]. done.
  - intros (m & e & -> & _ & He & Hm). f_equal. simpl cond_Zopp.
    rewrite <- (Z.opp_involutive e), Z.shiftl_opp_r, Z.shiftr_div_pow2, Hm by lia.
    apply Z.div_mul. apply Z.pow_nonzero; lia.
  - intros (m & e & -> & _ & He & Hm). f_equal. simpl cond_Zopp.
    rewrite <- (Z.opp_involutive e), Z.shiftl_opp_r, Z.shiftr_div_pow2, Hm by lia.
    rewrite Z.div_mul by (apply Z.pow_nonzero; lia). done.
Qed.

Lemma py_mul_int_float (z : Z) (f c : float) :
  py_float (PyInt z) = Ret f ->
  py_mul (PyInt z) (PyFloat c) = Ret (PyFloat (f * c)).
Proof. intros H. unfold py_mul, binop. rewrite H. reflexivity. Qed.

(** ** rotate, _rotate and __init__ *)

Section LibmFacts.

Variables libm_sin libm_cos : float -> float.

(** [math.sin] and [math.cos] return what the C library returns when
    that is a finite double. *)
Lemma math_1_value (func : float -> float) (x r : float) :
  func x = r -> finite r = true -> math_1 func (PyFloat x) = Ret r.
Proof.
  intros <- Hfin. unfold math_1. simpl py_float. rewrite result_bind_ret.
  unfold finite in Hfin. unfold is_nan, is_infinity.
  rewrite !FloatAxioms.eqb_spec, abs_spec.
  change (Prim2SF infinity) with (S754_infinity false).
  destruct (Prim2SF (func x)) as [s|s| |s m e]; try done.
  simpl. unfold SFeqb. simpl.
  rewrite Z.compare_refl, Pos.compare_cont_refl. by destruct s.
Qed.

(** [rotate] once the angle, its cosine and its sine are known:
    x' = int(x c - y s) and y' = int(x s + y c). *)
Lemma rotate_formula (x y deg : pynum) (rad c s : float) :
  radians deg = Ret rad ->
  math_cos libm_cos (PyFloat rad) = Ret c ->
  math_sin libm_sin (PyFloat rad) = Ret s ->
  rotate libm_sin libm_cos (x, y) deg =
    (x' ← (xc ← py_mul x (PyFloat c); ys ← py_mul y (PyFloat s);
           py_sub xc ys ≫= py_int);
     y' ← (xs ← py_mul x (PyFloat s); yc ← py_mul y (PyFloat c);
           py_add xs yc ≫= py_int);
     mret (x', y')).
Proof.
  intros Hr Hc Hs. unfold rotate.
  rewrite Hr, result_bind_ret, Hc, result_bind_ret, Hs, result_bind_ret.
  reflexivity.
Qed.

Hypothesis cos_0 : libm_cos 0%float = 1%float.
Hypothesis sin_0 : libm_sin 0%float = 0%float.

Lemma math_cos_0 : math_cos libm_cos (PyFloat 0) = Ret 1%float.
Proof. by apply math_1_value. Qed.

Lemma math_sin_0 : math_sin libm_sin (PyFloat 0) = Ret 0%float.
Proof. by apply math_1_value. Qed.

(** At 0 degrees an integer point below 2^53 comes back unchanged. *)
Lemma rotate_zero_int (x y : Z) :
  Z.abs x < 2 ^ 53 -> Z.abs y < 2 ^ 53 ->
  rotate libm_sin libm_cos (PyInt x, PyInt y) 0 = Ret (x, y).
Proof.
  intros Hx Hy.
  rewrite (rotate_formula x y 0 0 1 0)
    by (reflexivity || apply math_cos_0 || apply math_sin_0).
  destruct (py_float_represents x Hx) as (fx & Hfx & Rx).
  destruct (py_float_represents y Hy) as (fy & Hfy & Ry).
  rewrite !(py_mul_int_float x fx) by done.
  rewrite !(py_mul_int_float y fy) by done.
  rewrite !result_bind_ret.
  change (py_sub (PyFloat (fx * 1)) (PyFloat (fy * 0)))
    with (Ret (PyFloat (fx * 1 - fy * 0))).
  change (py_add (PyFloat (fx * 0)) (PyFloat (fy * 1)))
    with (Ret (PyFloat (fx * 0 + fy * 1))).
  rewrite !result_bind_ret.
  destruct (mul_zero_represents fy y Ry) as [sy Zy].
  destruct (mul_zero_represents fx x Rx) as [sx Zx].
  rewrite (py_int_represents _ x
             (sub_zero_represents _ _ _ _ (mul_one_represents _ _ Rx) Zy)).
  rewrite result_bind_ret.
  rewrite (py_int_represents _ y
             (zero_add_represents _ _ _ _ Zx (mul_one_represents _ _ Ry))).
  reflexivity.
Qed.

(** At 0 degrees a point with a fractional coordinate is truncated. *)
Lemma rotate_zero_fraction :
  rotate libm_sin libm_cos (PyFloat (-12), PyFloat 7.5) 0 = Ret (-12, 7).
Proof.
  rewrite (rotate_formula _ _ 0 0 1 0)
    by (reflexivity || apply math_cos_0 || apply math_sin_0).
  vm_compute. reflexivity.
Qed.

Lemma _rotate_zero :
  _rotate libm_sin libm_cos 0 0 (PyFloat one_tenth) 0 =
    Ret (PyFloat one_tenth, PyFloat 0).
Proof.
  unfold _rotate. change (radians 0) with (Ret 0%float).
  rewrite result_bind_ret, math_cos_0, math_sin_0. reflexivity.
Qed.

Lemma _add_vehicle_seed (w : World) :
  _add_vehicle libm_sin libm_cos 16000 16000 0 w =
    (Ret tt,
     emit [ax_arrow seed_arrow ROBOT_WIDTH_MM ROBOT_HEIGHT_MM]
       {| self := {| map_size_pixels := map_size_pixels (self w);
                     map_scale_mm_per_pixel := map_scale_mm_per_pixel (self w);
                     window_name := window_name (self w);
                     bgrbytes := bgrbytes (self w);
                     figid := figid (self w);
                     vehicle := Some seed_arrow |};
          calls := calls w |}).
Proof.
  unfold _add_vehicle. rewrite _rotate_zero, bind_lift_ret. reflexivity.
Qed.

Lemma init_run (size : Z) (scale : pynum) (name : string) (fig : Z)
    (map_size_mm : pynum) (w : World) :
  0 <= size ->
  py_mul scale size = Ret map_size_mm ->
  __init__ libm_sin libm_cos size scale name fig w =
    (Ret tt,
     {| self := fresh_session size scale name fig;
        calls := calls w ++ init_calls size name map_size_mm |}).
Proof.
  intros Hsize Hmm. unfold __init__, bytearray.
  destruct (Z.ltb_spec (size * size * 3) 0) as [|_]; [nia|].
  rewrite bind_lift_ret, bind_set_self.
  rewrite !bind_call, bind_set_self, !bind_call, Hmm, bind_lift_ret, !bind_call.
  rewrite _add_vehicle_seed. unfold emit, fresh_session, init_calls. simpl.
  rewrite <- !app_assoc. reflexivity.
Qed.

(** The session [__init__] builds has a raster of 3 x size x size
    bytes. *)
Lemma fresh_session_raster_ok (size : Z) (scale : pynum) (name : string)
    (fig : Z) :
  0 <= size -> raster_ok (fresh_session size scale name fig).
Proof.
  intros Hsize. split; [done|]. simpl. rewrite length_replicate. nia.
Qed.

End LibmFacts.

Lemma sample_libm_exact : libm_exact_at_axes sample_sin sample_cos.
Proof. repeat split. Qed.

(** C5 (as amended): with a C library that is correctly rounded at 0,
    pi/2 and pi, [rotate] sends (10, 0) to (0, 10) at 90 degrees and to
    (-10, 0) at 180 degrees, and at 0 degrees returns every point with
    integer coordinates below 2^53 in magnitude unchanged.  In general,
    with c and s the cosine and sine of the angle in radians, it returns
    (int(x c - y s), int(x s + y c)), the counter-clockwise rotation
    truncated toward zero. *)
Theorem rotate_spec (libm_sin libm_cos : float -> float) :
  libm_exact_at_axes libm_sin libm_cos ->
  rotate libm_sin libm_cos (PyInt 10, PyInt 0) 90 = Ret (0, 10)
  /\ rotate libm_sin libm_cos (PyInt 10, PyInt 0) 180 = Ret (-10, 0)
  /\ (forall x y : Z, Z.abs x < 2 ^ 53 -> Z.abs y < 2 ^ 53 ->
        rotate libm_sin libm_cos (PyInt x, PyInt y) 0 = Ret (x, y))
  /\ (forall (x y deg : pynum) (rad c s : float),
        radians deg = Ret rad ->
        math_cos libm_cos (PyFloat rad) = Ret c ->
        math_sin libm_sin (PyFloat rad) = Ret s ->
        rotate libm_sin libm_cos (x, y) deg =
          (x' ← (xc ← py_mul x (PyFloat c); ys ← py_mul y (PyFloat s);
                 py_sub xc ys ≫= py_int);
           y' ← (xs ← py_mul x (PyFloat s); yc ← py_mul y (PyFloat c);
                 py_add xs yc ≫= py_int);
           mret (x', y'))).
Proof.
  intros (Hc0 & Hs0 & Hc90 & Hs90 & Hc180 & Hs180).
  split; [|split; [|split]].
  - rewrite (rotate_formula _ _ 10 0 90 half_pi cos_half_pi 1)
      by (reflexivity || by apply math_1_value).
    vm_compute. reflexivity.
  - rewrite (rotate_formula _ _ 10 0 180 math_pi (-1) sin_pi)
      by (reflexivity || by apply math_1_value).
    vm_compute. reflexivity.
  - intros x y. by apply rotate_zero_int.
  - apply rotate_formula.
Qed.

Lemma rotate_spec_witness :
  rotate sample_sin sample_cos (PyInt 3, PyInt (-4)) 0 = Ret (3, -4).
Proof.
  apply (proj1 (proj2 (proj2 (rotate_spec sample_sin sample_cos sample_libm_exact)))).
  - vm_compute. reflexivity.
  - vm_compute. reflexivity.
Defined.

(** C5 (as stated) fails at 0 degrees on a point that is not integral:
    the first vertex of [robot_polyline(1.5)], (-12.0, 7.5), comes back
    as (-12, 7), and 7.5 is not 7.  It also fails on an integer too large
    for a double: 2^53 + 1 comes back as 2^53. *)
Lemma rotate_zero_not_identity :
  robot_polyline (PyFloat 1.5) =
    Ret [(PyFloat (-12), PyFloat 7.5); (PyFloat 12, PyInt 0);
         (PyFloat (-12), PyFloat (-12))]
  /\ rotate sample_sin sample_cos (PyFloat (-12), PyFloat 7.5) 0 = Ret (-12, 7)
  /\ py_eq_int (PyFloat 7.5) 7 = false
  /\ rotate sample_sin sample_cos (PyInt (2 ^ 53 + 1), PyInt 0) 0 =
       Ret (2 ^ 53, 0).
Proof. repeat split. Qed.

(** C6: whatever the map size and scale, [__init__] seeds the arrow at
    the fixed point (16000, 16000) with zero orientation; the axes it has
    just set run from 0 to scale x size, so the seed is their centre only
    when that extent is 32000. *)
Theorem init_seeds_hardcoded_pose (libm_sin libm_cos : float -> float)
    (size : Z) (scale : pynum) (name : string) (fig : Z) (map_size_mm : pynum) :
  libm_cos 0%float = 1%float ->
  libm_sin 0%float = 0%float ->
  0 <= size ->
  py_mul scale size = Ret map_size_mm ->
  __init__ libm_sin libm_cos size scale name fig blank =
    (Ret tt,
     {| self := fresh_session size scale name fig;
        calls := init_calls size name map_size_mm |})
  /\ vehicle (fresh_session size scale name fig) = Some seed_arrow
  /\ In (ax_set_xlim 0 map_size_mm) (init_calls size name map_size_mm)
  /\ In (ax_arrow seed_arrow ROBOT_WIDTH_MM ROBOT_HEIGHT_MM)
       (init_calls size name map_size_mm)
  /\ arrow_x seed_arrow = PyInt 16000 /\ arrow_y seed_arrow = PyInt 16000
  /\ arrow_dy seed_arrow = PyFloat 0.
Proof.
  intros Hc Hs Hsize Hmm. split.
  - by rewrite (init_run _ _ Hc Hs _ _ _ _ map_size_mm).
  - repeat split; simpl; tauto.
Qed.

Lemma init_seeds_hardcoded_pose_witness :
  __init__ sample_sin sample_cos 100 10 "SLAM" 77 blank =
    (Ret tt,
     {| self := fresh_session 100 10 "SLAM" 77;
        calls := init_calls 100 "SLAM" 1000 |})
  /\ py_div 1000 2 = Ret (PyInt 500).
Proof.
  split; [|reflexivity].
  apply (init_seeds_hardcoded_pose sample_sin sample_cos 100 10 "SLAM" 77 1000);
    [reflexivity | reflexivity | lia | reflexivity].
Defined.

(** * Further properties *)

(** ** displayScan *)

Lemma scan_mapM_cons_inv (scale : pynum) (off p : point) (t : list point)
    (l : list pixel) :
  mapM (scan_pix scale off) (p :: t) = Ret l ->
  exists q l', l = q :: l' /\ scan_pix scale off p = Ret q /\
    mapM (scan_pix scale off) t = Ret l'.
Proof.
  simpl. destruct (scan_pix scale off p) as [q|]; [|done].
  destruct (mapM (scan_pix scale off) t) as [l'|]; [|done].
  simpl. intros [= <-]. eauto.
Qed.

Lemma scan_pix_inv (scale : pynum) (off p : point) (q : pixel) :
  scan_pix scale off p = Ret q ->
  py_add p.1 off.1 ≫= mm2pix scale = Ret q.1 /\
  py_add p.2 off.2 ≫= mm2pix scale = Ret q.2.
Proof.
  unfold scan_pix. destruct (py_add p.1 off.1 ≫= mm2pix scale) as [x|]; [|done].
  destruct (py_add p.2 off.2 ≫= mm2pix scale) as [y|]; [|done].
  simpl. intros [= <-]. done.
Qed.

(** X1: when every scan point, moved by the offset, converts to pixels,
    [displayScan] returns after drawing one circle of radius
    SCANPOINT_RADIUS per point, in input order, in the colour given. *)
Theorem displayScan_emits_circles (w : World) (scan : list point)
    (offset_mm : point) (c : color) (pixels : list pixel) :
  mapM (scan_pix (map_scale_mm_per_pixel (self w)) offset_mm) scan = Ret pixels ->
  displayScan scan offset_mm c w = (Ret tt, emit (circles c pixels) w)
  /\ length (circles c pixels) = length scan.
Proof.
  revert pixels w. induction scan as [|p t IH]; intros pixels w H.
  - injection H as <-. by rewrite emit_nil.
  - apply scan_mapM_cons_inv in H as (q & l' & -> & Hp & Ht).
    apply scan_pix_inv in Hp as [Hx Hy].
    unfold displayScan. simpl for_each. unfold mbind at 1, M_bind.
    rewrite bind_get_self, Hx, bind_lift_ret, Hy, bind_lift_ret, call_run.
    destruct (IH l' (emit [cv_Circle (q.1, q.2) SCANPOINT_RADIUS c] w) Ht)
      as [IH1 IH2].
    split; [|simpl; by rewrite IH2].
    etransitivity; [exact IH1|]. rewrite emit_emit. by destruct q.
Qed.

Lemma displayScan_emits_circles_witness :
  displayScan [(PyInt 10, PyInt 20); (PyFloat (-35.5), PyInt 0)] (PyInt 5, PyInt 5)
    SCANPOINT_COLOR_BGR session2 =
    (Ret tt,
     emit [cv_Circle (1, 2) 1 (0, 255, 0); cv_Circle (-3, 0) 1 (0, 255, 0)]
       session2).
Proof.
  apply (displayScan_emits_circles session2 _ _ _ [(1, 2); (-3, 0)]).
  vm_compute. reflexivity.
Defined.

(** ** displayTrajectory on a point that does not convert *)

Lemma trajectory_step_first_raise (x1 y1 : pynum) (p : point) (t : list point)
    (a1 b1 : Z) (e : exn) (w : World) :
  mm2pix (map_scale_mm_per_pixel (self w)) x1 = Ret a1 ->
  mm2pix (map_scale_mm_per_pixel (self w)) y1 = Ret b1 ->
  pix (map_scale_mm_per_pixel (self w)) p = Raise e ->
  trajectory_step ((x1, y1) :: p :: t) 1 w = (Raise e, w).
Proof.
  intros Hx Hy Hp. destruct p as [x2 y2]. unfold trajectory_step.
  change (py_index ((x1, y1) :: (x2, y2) :: t) (1 - 1)) with (Ret (x1, y1)).
  change (py_index ((x1, y1) :: (x2, y2) :: t) 1) with (Ret (x2, y2)).
  rewrite !bind_lift_ret, bind_get_self.
  rewrite Hx, bind_lift_ret, Hy, bind_lift_ret.
  unfold pix in Hp. simpl in Hp.
  destruct (mm2pix (map_scale_mm_per_pixel (self w)) x2) as [a2|e2].
  - rewrite bind_lift_ret.
    destruct (mm2pix (map_scale_mm_per_pixel (self w)) y2) as [b2|e2]; [done|].
    injection Hp as ->. apply bind_lift_raise.
  - injection Hp as ->. apply bind_lift_raise.
Qed.

(** X3: when the trajectory starts with points that convert and then
    has one that does not, the segments between the good points are
    drawn, nothing after them, and the exception of the bad point
    reaches the caller. *)
Theorem displayTrajectory_stops_at_bad_point (w : World)
    (good : list point) (bad : point) (rest : list point)
    (pixels : list pixel) (e : exn) :
  good <> [] ->
  mapM (pix (map_scale_mm_per_pixel (self w))) good = Ret pixels ->
  pix (map_scale_mm_per_pixel (self w)) bad = Raise e ->
  displayTrajectory (good ++ bad :: rest) w =
    (Raise e, emit (segments pixels) w).
Proof.
  revert pixels w. induction good as [|p t IH]; intros pixels w Hne H Hbad;
    [done|].
  apply mapM_cons_inv in H as (q & l' & -> & Hp & Ht).
  apply pix_inv in Hp as [Hx Hy]. destruct p as [x1 y1], q as [a1 b1].
  simpl in Hx, Hy.
  destruct t as [|p' t].
  - injection Ht as <-. rewrite emit_nil.
    unfold displayTrajectory. simpl app. simpl length.
    replace (S (S (length rest)) - 1)%nat with (S (length rest)) by lia.
    simpl seq. simpl for_each. unfold mbind at 1, M_bind.
    by rewrite (trajectory_step_first_raise _ _ _ _ _ _ _ _ Hx Hy Hbad).
  - pose proof Ht as Ht'.
    apply mapM_cons_inv in Ht as (q' & l'' & -> & Hp' & Ht).
    apply pix_inv in Hp' as [Hx' Hy']. destruct p' as [x2 y2], q' as [a2 b2].
    simpl in Hx', Hy'.
    unfold displayTrajectory. simpl app. simpl length.
    replace (S (S (length (t ++ bad :: rest))) - 1)%nat
      with (S (length (t ++ bad :: rest))) by lia.
    simpl seq. simpl for_each. unfold mbind at 1, M_bind.
    rewrite (trajectory_step_first _ _ _ _ _ _ _ _ _ _ Hx Hy Hx' Hy').
    rewrite for_each_shift by lia.
    specialize (IH _ (emit [cv_Line (a1, b1) (a2, b2) TRAJECTORY_COLOR_BGR] w)
                  ltac:(done) Ht' Hbad).
    unfold displayTrajectory in IH. simpl app in IH. simpl length in IH.
    replace (S (length (t ++ bad :: rest)) - 1)%nat
      with (length (t ++ bad :: rest)) in IH by lia.
    rewrite IH, emit_emit. done.
Qed.

Lemma displayTrajectory_stops_at_bad_point_witness :
  displayTrajectory
    ([(PyInt 10, PyInt 20); (PyInt 30, PyInt 45)]
       ++ (PyFloat nan, PyInt 0) :: [(PyInt 50, PyInt 60)]) session2 =
    (Raise ValueError, emit [cv_Line (1, 2) (3, 4) TRAJECTORY_COLOR_BGR] session2).
Proof.
  apply (displayTrajectory_stops_at_bad_point session2 _ _ _ [(1, 2); (3, 4)]).
  - discriminate.
  - vm_compute. reflexivity.
  - vm_compute. reflexivity.
Defined.

(** ** displayMap twice *)

(** X4: two maps composited one after the other leave the raster of the
    second alone, and hand each raster to [cv.SetData] in turn. *)
Theorem displayMap_last_write_wins (w : World) (first second : list byte) :
  raster_ok (self w) ->
  Z.of_nat (length first) = map_size_pixels (self w) * map_size_pixels (self w) ->
  Z.of_nat (length second) = map_size_pixels (self w) * map_size_pixels (self w) ->
  (displayMap first;; displayMap second) w =
    (Ret tt,
     {| self := with_bgrbytes (triple_bytes second) (self w);
        calls := calls w ++
          [cv_SetData (triple_bytes first) (map_size_pixels (self w) * 3);
           cv_SetData (triple_bytes second) (map_size_pixels (self w) * 3)] |}).
Proof.
  intros [Hsize Hlen] H1 H2. unfold mbind, M_bind.
  rewrite displayMap_ok by lia.
  rewrite displayMap_ok by (simpl; rewrite triple_bytes_length; lia).
  unfold emit, with_bgrbytes. simpl. by rewrite <- app_assoc.
Qed.

Lemma displayMap_last_write_wins_witness :
  (displayMap [x0a; x14; x1e; x28];; displayMap [x01; x02; x03; x04]) session2 =
    (Ret tt,
     {| self := with_bgrbytes
                  [x01; x01; x01; x02; x02; x02; x03; x03; x03; x04; x04; x04]
                  (self session2);
        calls :=
          [cv_SetData
             [x0a; x0a; x0a; x14; x14; x14; x1e; x1e; x1e; x28; x28; x28] 6;
           cv_SetData
             [x01; x01; x01; x02; x02; x02; x03; x03; x03; x04; x04; x04] 6] |}).
Proof.
  apply (displayMap_last_write_wins session2 [x0a; x14; x1e; x28]
           [x01; x02; x03; x04]).
  - split; [simpl; lia | reflexivity].
  - reflexivity.
  - reflexivity.
Defined.

(** ** show_velocity and displayVelocities *)

(** X10: when the bar length cannot be computed (zero span, NaN or
    infinite reading) the label is already drawn, no rectangle follows,
    and the exception reaches the caller. *)
Theorem show_velocity_label_then_raise (value valspan : pynum) (label : string)
    (y : Z) (e : exn) (w : World) :
  (q ← py_div value valspan; p ← py_mul q SENSOR_BAR_MAX_HEIGHT; py_int p)
    = Raise e ->
  show_velocity value valspan label y w =
    (Raise e,
     emit [cv_PutText (label ++ ":") (SENSOR_TEXT_X, y) SENSOR_LABEL_COLOR_BGR] w).
Proof.
  intros H. unfold show_velocity. by rewrite bind_call, H, bind_lift_raise.
Qed.

Lemma show_velocity_label_then_raise_witness :
  show_velocity (PyFloat 12.5) 0 "dXY" 30 session2 =
    (Raise ZeroDivisionError,
     emit [cv_PutText "dXY:" (20, 30) (255, 0, 0)] session2).
Proof.
  apply (show_velocity_label_then_raise (PyFloat 12.5) 0 "dXY" 30).
  vm_compute. reflexivity.
Defined.

(** X11: when both bar lengths evaluate, [displayVelocities] makes four
    calls: the dXY label and bar on the row y = 30 against a span of
    1000, then the dTheta label and bar on the row y = 80 against a span
    of 20, each bar from x = 350 and coloured by the sign of its
    reading. *)
Theorem displayVelocities_two_bars (dxy_mm dtheta_deg : pynum) (len1 len2 : Z)
    (w : World) :
  (q ← py_div dxy_mm SENSOR_V_MAX_MM; p ← py_mul q SENSOR_BAR_MAX_HEIGHT;
   py_int p) = Ret len1 ->
  (q ← py_div dtheta_deg SENSOR_THETA_MAX_DEG;
   p ← py_mul q SENSOR_BAR_MAX_HEIGHT; py_int p) = Ret len2 ->
  displayVelocities dxy_mm dtheta_deg w =
    (Ret tt,
     emit [cv_PutText "   dXY:" (20, 30) SENSOR_LABEL_COLOR_BGR;
           cv_Rectangle (350, 33) (350 + len1, 13)
             (if py_lt0 dxy_mm then SENSOR_NEGATIVE_COLOR_BGR
              else SENSOR_POSITIVE_COLOR_BGR);
           cv_PutText "dTheta:" (20, 80) SENSOR_LABEL_COLOR_BGR;
           cv_Rectangle (350, 83) (350 + len2, 63)
             (if py_lt0 dtheta_deg then SENSOR_NEGATIVE_COLOR_BGR
              else SENSOR_POSITIVE_COLOR_BGR)] w).
Proof.
  intros H1 H2. unfold displayVelocities, mbind, M_bind.
  rewrite (show_velocity_ret _ _ _ _ len1) by done.
  rewrite (show_velocity_ret _ _ _ _ len2) by done.
  by rewrite emit_emit.
Qed.

Lemma displayVelocities_two_bars_witness :
  displayVelocities (PyFloat 250) (PyFloat (-30)) session2 =
    (Ret tt,
     emit [cv_PutText "   dXY:" (20, 30) (255, 0, 0);
           cv_Rectangle (350, 33) (400, 13) (0, 255, 0);
           cv_PutText "dTheta:" (20, 80) (255, 0, 0);
           cv_Rectangle (350, 83) (50, 63) (0, 0, 255)] session2).
Proof.
  apply (displayVelocities_two_bars (PyFloat 250) (PyFloat (-30)) 50 (-300));
    vm_compute; reflexivity.
Defined.

(** X12: an integer reading from 0 up to, but not including, an integer
    span draws a bar of length 0 in the positive colour. *)
Theorem show_velocity_int_below_span (value valspan : Z) (label : string)
    (y : Z) (w : World) :
  0 <= value < valspan ->
  show_velocity value valspan label y w =
    (Ret tt,
     emit [cv_PutText (label ++ ":") (SENSOR_TEXT_X, y) SENSOR_LABEL_COLOR_BGR;
           cv_Rectangle (350, y + 3) (350, y - 20 + 3)
             SENSOR_POSITIVE_COLOR_BGR] w).
Proof.
  intros H. rewrite show_velocity_int by lia.
  rewrite Z.div_small by lia.
  destruct (Z.ltb_spec value 0); [lia|]. done.
Qed.

Lemma show_velocity_int_below_span_witness :
  show_velocity 999 1000 "dXY" 30 session2 =
    (Ret tt,
     emit [cv_PutText "dXY:" (20, 30) (255, 0, 0);
           cv_Rectangle (350, 33) (350, 13) (0, 255, 0)] session2).
Proof. apply (show_velocity_int_below_span 999 1000 "dXY" 30). lia. Defined.

(** ** setPose *)

Lemma arrows_live_app (cs1 cs2 : list Call) :
  arrows_live (cs1 ++ cs2) = arrows_live cs1 + arrows_live cs2.
Proof.
  induction cs1 as [|c cs1 IH]; [done|]. destruct c; simpl; lia.
Qed.

Section PoseFacts.

Variables libm_sin libm_cos : float -> float.

(** X8: on a session that has an arrow, when the orientation vector
    evaluates, [setPose] removes that arrow, creates one at the new
    position with that vector, stores it, and leaves the number of live
    arrows as it was. *)
Theorem setPose_replaces_arrow (x_mm y_mm theta_deg dx dy : pynum)
    (old : Arrow) (w : World) :
  vehicle (self w) = Some old ->
  _rotate libm_sin libm_cos 0 0 (PyFloat one_tenth) theta_deg = Ret (dx, dy) ->
  let new := {| arrow_x := x_mm; arrow_y := y_mm;
                arrow_dx := dx; arrow_dy := dy |} in
  setPose libm_sin libm_cos x_mm y_mm theta_deg w =
    (Ret tt,
     {| self := {| map_size_pixels := map_size_pixels (self w);
                   map_scale_mm_per_pixel := map_scale_mm_per_pixel (self w);
                   window_name := window_name (self w);
                   bgrbytes := bgrbytes (self w);
                   figid := figid (self w);
                   vehicle := Some new |};
        calls := calls w ++
          [arrow_remove old; ax_arrow new ROBOT_WIDTH_MM ROBOT_HEIGHT_MM] |})
  /\ arrows_live (calls (setPose libm_sin libm_cos x_mm y_mm theta_deg w).2) =
       arrows_live (calls w).
Proof.
  intros Hv Hr new.
  assert (setPose libm_sin libm_cos x_mm y_mm theta_deg w =
    (Ret tt,
     {| self := {| map_size_pixels := map_size_pixels (self w);
                   map_scale_mm_per_pixel := map_scale_mm_per_pixel (self w);
                   window_name := window_name (self w);
                   bgrbytes := bgrbytes (self w);
                   figid := figid (self w);
                   vehicle := Some new |};
        calls := calls w ++
          [arrow_remove old; ax_arrow new ROBOT_WIDTH_MM ROBOT_HEIGHT_MM] |}))
    as E.
  { unfold setPose. rewrite bind_get_self, Hv, bind_call.
    unfold _add_vehicle. rewrite Hr, bind_lift_ret, bind_call, bind_get_self.
    unfold set_self, emit. simpl. by rewrite <- app_assoc. }
  split; [done|]. rewrite E. simpl. rewrite arrows_live_app. simpl. lia.
Qed.

(** X9: when the orientation vector raises (an infinite angle, say),
    [setPose] has already removed the old arrow: the exception reaches
    the caller, one arrow fewer is live, and the session still holds the
    removed one. *)
Theorem setPose_raise_leaves_no_arrow (x_mm y_mm theta_deg : pynum)
    (old : Arrow) (e : exn) (w : World) :
  vehicle (self w) = Some old ->
  _rotate libm_sin libm_cos 0 0 (PyFloat one_tenth) theta_deg = Raise e ->
  setPose libm_sin libm_cos x_mm y_mm theta_deg w =
    (Raise e, emit [arrow_remove old] w)
  /\ vehicle (self (emit [arrow_remove old] w)) = Some old
  /\ arrows_live (calls (emit [arrow_remove old] w)) = arrows_live (calls w) - 1.
Proof.
  intros Hv Hr. split; [|split].
  - unfold setPose. rewrite bind_get_self, Hv, bind_call.
    unfold _add_vehicle. by rewrite Hr, bind_lift_raise.
  - done.
  - simpl. rewrite arrows_live_app. simpl. lia.
Qed.

End PoseFacts.

Lemma setPose_replaces_arrow_witness :
  setPose sample_sin sample_cos (PyFloat 120.5) 80 90 posed =
    (Ret tt,
     {| self := {| map_size_pixels := 2; map_scale_mm_per_pixel := 10;
                   window_name := "SLAM";
                   bgrbytes := replicate 12 x00; figid := 77;
                   vehicle := Some {| arrow_x := PyFloat 120.5; arrow_y := 80;
                                      arrow_dx := PyFloat (one_tenth * cos_half_pi);
                                      arrow_dy := PyFloat one_tenth |} |};
        calls := init_calls 2 "SLAM" 20 ++
          [arrow_remove seed_arrow;
           ax_arrow {| arrow_x := PyFloat 120.5; arrow_y := 80;
                       arrow_dx := PyFloat (one_tenth * cos_half_pi);
                       arrow_dy := PyFloat one_tenth |} 300 500] |}).
Proof.
  refine (proj1 (setPose_replaces_arrow sample_sin sample_cos (PyFloat 120.5) 80 90
            (PyFloat (one_tenth * cos_half_pi)) (PyFloat one_tenth) seed_arrow posed _ _)).
  - reflexivity.
  - vm_compute. reflexivity.
Defined.

Lemma setPose_raise_leaves_no_arrow_witness :
  setPose sample_sin sample_cos 0 0 (PyFloat infinity) posed =
    (Raise ValueError, emit [arrow_remove seed_arrow] posed).
Proof.
  refine (proj1 (setPose_raise_leaves_no_arrow sample_sin sample_cos 0 0
                   (PyFloat infinity) seed_arrow ValueError posed _ _)).
  - reflexivity.
  - vm_compute. reflexivity.
Defined.

(** ** waitkey *)

Lemma bind_run {A B} (m : M A) (k : A -> M B) (a : A) (w w' : World) :
  m w = (Ret a, w') -> (m ≫= k) w = k a w'.
Proof. intros H. unfold mbind, M_bind. by rewrite H. Qed.

Lemma cvdisplay_run (e : Env) (w : World) :
  cvdisplay e w = (Ret (env_key e), emit [cv_WaitKey 1] w).
Proof. reflexivity. Qed.

Lemma waitkey_loop_first_key (keys : nat -> Z) (n i fuel : nat) (w : World) :
  (forall j : nat, (j < n)%nat -> keys (i + j)%nat <= -1) ->
  -1 < keys (i + n)%nat ->
  (n < fuel)%nat ->
  waitkey_loop keys i fuel w =
    (Ret (Some (keys (i + n)%nat)), emit (replicate (S n) (cv_WaitKey 1)) w).
Proof.
  revert i fuel w. induction n as [|n IH]; intros i fuel w Hno Hkey Hfuel.
  - destruct fuel as [|fuel]; [lia|]. simpl waitkey_loop.
    rewrite (bind_run _ _ _ _ _ (cvdisplay_run _ w)).
    change (env_key (key_env (keys i))) with (keys i).
    rewrite Nat.add_0_r in Hkey |- *.
    destruct (Z.ltb_spec (-1) (keys i)); [done|lia].
  - destruct fuel as [|fuel]; [lia|]. simpl waitkey_loop.
    rewrite (bind_run _ _ _ _ _ (cvdisplay_run _ w)).
    change (env_key (key_env (keys i))) with (keys i).
    pose proof (Hno 0%nat ltac:(lia)) as H0. rewrite Nat.add_0_r in H0.
    destruct (Z.ltb_spec (-1) (keys i)); [lia|].
    rewrite (IH (S i) fuel).
    + replace (S i + n)%nat with (i + S n)%nat by lia.
      rewrite emit_emit. done.
    + intros j Hj. replace (S i + j)%nat with (i + S j)%nat by lia.
      apply Hno. lia.
    + by replace (S i + n)%nat with (i + S n)%nat by lia.
    + lia.
Qed.

Lemma waitkey_loop_no_key (keys : nat -> Z) (i fuel : nat) (w : World) :
  (forall j : nat, (j < fuel)%nat -> keys (i + j)%nat <= -1) ->
  waitkey_loop keys i fuel w =
    (Ret None, emit (replicate fuel (cv_WaitKey 1)) w).
Proof.
  revert i w. induction fuel as [|fuel IH]; intros i w Hno.
  - simpl. by rewrite emit_nil.
  - simpl waitkey_loop. rewrite (bind_run _ _ _ _ _ (cvdisplay_run _ w)).
    change (env_key (key_env (keys i))) with (keys i).
    pose proof (Hno 0%nat ltac:(lia)) as H0. rewrite Nat.add_0_r in H0.
    destruct (Z.ltb_spec (-1) (keys i)); [lia|].
    rewrite (IH (S i)).
    + by rewrite emit_emit.
    + intros j Hj. replace (S i + j)%nat with (i + S j)%nat by lia.
      apply Hno. lia.
Qed.

(** X17: if the first key code above -1 comes at poll number [n], then
    [waitkey], given room for more than [n] polls, returns that code
    after exactly [n + 1] polls; it prints the prompt with the action in
    it. *)
Theorem waitkey_returns_first_key (action : string) (keys : nat -> Z)
    (n fuel : nat) (w : World) :
  (forall j : nat, (j < n)%nat -> keys j <= -1) ->
  -1 < keys n ->
  (n < fuel)%nat ->
  (waitkey action keys fuel).2 w =
    (Ret (Some (keys n)), emit (replicate (S n) (cv_WaitKey 1)) w)
  /\ (waitkey action keys fuel).1 =
       String.append "Hit any key to " (String.append action " ...").
Proof.
  intros Hno Hkey Hfuel. split; [|done].
  apply (waitkey_loop_first_key keys n 0 fuel w); done.
Qed.

Lemma waitkey_returns_first_key_witness :
  (waitkey "continue" (fun i => if (i <? 2)%nat then -1 else 113) 5).2 session2 =
    (Ret (Some 113),
     emit [cv_WaitKey 1; cv_WaitKey 1; cv_WaitKey 1] session2).
Proof.
  refine (proj1 (waitkey_returns_first_key "continue"
            (fun i => if (i <? 2)%nat then -1 else 113) 2 5 session2 _ _ _)).
  - intros j Hj. destruct j as [|[|j]]; simpl; lia.
  - reflexivity.
  - lia.
Defined.

(** X18: while every poll returns -1 (or less) [waitkey] does not
    return: after any number of polls it is still polling. *)
Theorem waitkey_keeps_polling (action : string) (keys : nat -> Z)
    (fuel : nat) (w : World) :
  (forall j : nat, (j < fuel)%nat -> keys j <= -1) ->
  (waitkey action keys fuel).2 w =
    (Ret None, emit (replicate fuel (cv_WaitKey 1)) w).
Proof. intros Hno. by apply (waitkey_loop_no_key keys 0 fuel w). Qed.

Lemma waitkey_keeps_polling_witness :
  (waitkey "continue" (fun _ => -1) 3).2 session2 =
    (Ret None, emit [cv_WaitKey 1; cv_WaitKey 1; cv_WaitKey 1] session2).
Proof. apply (waitkey_keeps_polling "continue" (fun _ => -1) 3). intros; lia. Defined.


(** ** More on doubles *)

Lemma float_mul_one (f : float) : (f * 1)%float = f.
Proof.
  apply Prim2SF_inj. rewrite mul_spec.
  pose proof (Prim2SF_valid f) as Hv.
  change (Prim2SF 1) with (S754_finite false 4503599627370496 (-52)).
  destruct (Prim2SF f) as [s|s| |s m e] eqn:E.
  - simpl. by rewrite xorb_false_r.
  - simpl. by rewrite xorb_false_r.
  - done.
  - change (S754_finite false 4503599627370496 (-52)) with (Prim2SF 1).
    by apply SF64mul_one.
Qed.

Lemma float_mul_zero (f : float) :
  finite f = true -> exists s, Prim2SF (f * 0) = S754_zero s.
Proof.
  unfold finite. rewrite mul_spec. change (Prim2SF 0) with (S754_zero false).
  destruct (Prim2SF f) as [s|s| |s m e]; try done; simpl; eauto.
Qed.

Lemma py_int_sub_zero (f g : float) (s : bool) :
  finite f = true -> Prim2SF g = S754_zero s ->
  py_int (PyFloat (f - g)) = py_int (PyFloat f).
Proof.
  unfold finite, py_int. rewrite sub_spec. intros Hf ->.
  destruct (Prim2SF f) as [s'|s'| |s' m e]; try done.
  by destruct s', s.
Qed.

Lemma py_int_zero_add (f g : float) (s : bool) :
  finite f = true -> Prim2SF g = S754_zero s ->
  py_int (PyFloat (g + f)) = py_int (PyFloat f).
Proof.
  unfold finite, py_int. rewrite add_spec. intros Hf ->.
  destruct (Prim2SF f) as [s'|s'| |s' m e]; try done.
  by destruct s', s.
Qed.

Lemma binary_round_aux_negb (s : bool) (m e : Z) (l : location) :
  binary_round_aux prec emax (negb s) m e l =
    SFopp (binary_round_aux prec emax s m e l).
Proof.
  unfold binary_round_aux.
  destruct (shr_fexp prec emax m e l) as [mrs' e'].
  destruct (shr_fexp prec emax _ e' loc_Exact) as [mrs'' e''].
  destruct (shr_m mrs''); [done| |done].
  by destruct (e'' <=? emax - prec).
Qed.

Lemma SF64div_opp_l (x y : spec_float) :
  SF64div (SFopp x) y = SFopp (SF64div x y).
Proof.
  unfold SF64div, SFdiv.
  destruct x as [sx|sx| |sx mx ex], y as [sy|sy| |sy my ey]; simpl;
    rewrite <- ?negb_xorb_l; try done.
  destruct (SFdiv_core_binary prec emax (Z.pos mx) ex (Z.pos my) ey)
    as [[mz ez] lz].
  apply binary_round_aux_negb.
Qed.

Lemma py_int_opp (f : float) :
  py_int (PyFloat (- f)) = Z.opp <$> py_int (PyFloat f).
Proof.
  unfold py_int. rewrite opp_spec.
  destruct (Prim2SF f) as [s|s| |s m e]; try done.
  simpl. f_equal. destruct s; simpl; lia.
Qed.

Lemma float_div_opp_l (f g : float) : (- f / g)%float = (- (f / g))%float.
Proof.
  apply Prim2SF_inj. by rewrite div_spec, !opp_spec, div_spec, SF64div_opp_l.
Qed.

Lemma binary_round_negb (s : bool) (m : positive) (e : Z) :
  binary_round prec emax (negb s) m e = SFopp (binary_round prec emax s m e).
Proof.
  unfold binary_round. destruct (shl_align _ _ _) as [mz ez].
  apply binary_round_aux_negb.
Qed.

(** [float(-z)] is [-float(z)] for an integer below 2^53. *)
Lemma py_float_opp_small (z : Z) (f : float) :
  Z.abs z < 2 ^ 53 -> z <> 0 ->
  py_float (PyInt z) = Ret f -> py_float (PyInt (- z)) = Ret (- f)%float.
Proof.
  intros Hz Hnz. unfold py_float, binary_normalize.
  destruct z as [|p|p]; [done| |].
  - destruct (binary_round_small false p) as (m & e & E & Hb & _); [lia|].
    change (- Z.pos p) with (Z.neg p). cbv iota.
    change true with (negb false). rewrite binary_round_negb, E.
    cbn [SFopp negb]. cbv iota beta.
    intros [= <-]. reflexivity.
  - destruct (binary_round_small true p) as (m & e & E & Hb & _); [lia|].
    change (- Z.neg p) with (Z.pos p). cbv iota.
    change false with (negb true). rewrite binary_round_negb, E.
    cbn [SFopp negb]. cbv iota beta.
    intros [= <-]. f_equal. apply Prim2SF_inj.
    rewrite opp_spec, !Prim2SF_SF2Prim by done.
    change (- Z.ldexp (of_uint63 (Uint63Axioms.of_pos m)) e)%float
      with (SF2Prim (S754_finite true m e)).
    by rewrite Prim2SF_SF2Prim.
Qed.

Lemma mm2pix_opp_float (scale : pynum) (f : float) :
  mm2pix scale (PyFloat (- f)) = Z.opp <$> mm2pix scale (PyFloat f).
Proof.
  unfold mm2pix. destruct (py_float scale) as [fs|e]; [|done].
  rewrite !result_bind_ret. unfold py_div, binop. simpl py_float.
  rewrite !result_bind_ret. destruct (fs =? 0)%float; [done|].
  rewrite !result_bind_ret, float_div_opp_l. apply py_int_opp.
Qed.

(** The origin is pixel 0 whenever the conversion returns. *)
Lemma mm2pix_origin (scale : pynum) :
  (exists e, mm2pix scale 0 = Raise e) \/ mm2pix scale 0 = Ret 0.
Proof.
  unfold mm2pix. destruct (py_float scale) as [fs|e]; [|by left; eexists].
  rewrite result_bind_ret. unfold py_div, binop.
  change (py_float 0) with (Ret 0%float). simpl py_float.
  rewrite !result_bind_ret.
  destruct (fs =? 0)%float; [by left; eexists|]. rewrite result_bind_ret.
  unfold py_int. rewrite div_spec. change (Prim2SF 0) with (S754_zero false).
  destruct (Prim2SF fs) as [s|s| |s m e]; simpl;
    (by right) || (by left; eexists).
Qed.

(** X14: [mm2pix] is odd: negating the length negates the pixel (or
    raises the same exception), for float lengths and for integers below
    2^53. *)
Theorem mm2pix_odd (scale mm : pynum) :
  match mm with PyInt z => Z.abs z < 2 ^ 53 | PyFloat _ => True end ->
  mm2pix scale (py_neg mm) = Z.opp <$> mm2pix scale mm.
Proof.
  destruct mm as [z|f]; intros Hz; simpl py_neg; [|apply mm2pix_opp_float].
  destruct (Z.eq_dec z 0) as [->|Hnz].
  - change (- 0) with 0. destruct (mm2pix_origin scale) as [[e ->]| ->]; done.
  - destruct (py_float_represents z Hz) as (fz & Hfz & _).
    pose proof (py_float_opp_small z fz Hz Hnz Hfz) as Hopp.
    unfold mm2pix. destruct (py_float scale) as [fs|e]; [|done].
    rewrite !result_bind_ret. unfold py_div, binop. rewrite Hfz, Hopp.
    rewrite !result_bind_ret. simpl py_float. rewrite !result_bind_ret.
    destruct (fs =? 0)%float; [done|].
    rewrite !result_bind_ret, float_div_opp_l. apply py_int_opp.
Qed.

Lemma mm2pix_odd_witness :
  mm2pix 10 (py_neg (PyFloat 25.5)) = Ret (-2)
  /\ mm2pix 10 (PyFloat 25.5) = Ret 2.
Proof.
  split; [|reflexivity].
  exact (mm2pix_odd 10 (PyFloat 25.5) I).
Defined.

(** X13: with a scale of zero (0, 0.0 or -0.0) [mm2pix] raises
    [ZeroDivisionError] for every length that converts to a float. *)
Theorem mm2pix_zero_scale (scale mm : pynum) (fs fm : float) :
  py_float scale = Ret fs ->
  (fs =? 0)%float = true ->
  py_float mm = Ret fm ->
  mm2pix scale mm = Raise ZeroDivisionError.
Proof.
  intros Hs Hz Hm. unfold mm2pix. rewrite Hs, result_bind_ret.
  unfold py_div, binop.
  assert (py_float mm ≫= (fun x => py_float (PyFloat fs) ≫= fun y =>
            if (y =? 0)%float then Raise ZeroDivisionError
            else Ret (PyFloat (x / y))) = Raise ZeroDivisionError) as H.
  { rewrite Hm. simpl. by rewrite Hz. }
  destruct mm; by rewrite H.
Qed.

Lemma mm2pix_zero_scale_witness :
  mm2pix 0 1000 = Raise ZeroDivisionError
  /\ mm2pix (PyFloat (-0)) (PyFloat 2.5) = Raise ZeroDivisionError.
Proof.
  split.
  - exact (mm2pix_zero_scale 0 1000 0%float 1000%float eq_refl eq_refl eq_refl).
  - exact (mm2pix_zero_scale (PyFloat (-0)) (PyFloat 2.5) (-0)%float 2.5%float
             eq_refl eq_refl eq_refl).
Defined.

Section RotateFloat.

Variables libm_sin libm_cos : float -> float.
Hypothesis cos_0 : libm_cos 0%float = 1%float.
Hypothesis sin_0 : libm_sin 0%float = 0%float.

(** X15: at 0 degrees, with cos 0 = 1 and sin 0 = 0, [rotate] returns
    each finite float coordinate rounded toward zero. *)
Theorem rotate_zero_truncates (fx fy : float) :
  finite fx = true -> finite fy = true ->
  rotate libm_sin libm_cos (PyFloat fx, PyFloat fy) 0 =
    Ret (float_trunc fx, float_trunc fy).
Proof.
  intros Hx Hy.
  rewrite (rotate_formula _ _ _ _ 0 0 1 0)
    by (reflexivity || by apply math_cos_0 || by apply math_sin_0).
  change (py_mul (PyFloat fx) (PyFloat 1)) with (Ret (PyFloat (fx * 1))).
  change (py_mul (PyFloat fy) (PyFloat 0)) with (Ret (PyFloat (fy * 0))).
  change (py_mul (PyFloat fx) (PyFloat 0)) with (Ret (PyFloat (fx * 0))).
  change (py_mul (PyFloat fy) (PyFloat 1)) with (Ret (PyFloat (fy * 1))).
  rewrite !result_bind_ret, !float_mul_one.
  change (py_sub (PyFloat fx) (PyFloat (fy * 0)))
    with (Ret (PyFloat (fx - fy * 0))).
  change (py_add (PyFloat (fx * 0)) (PyFloat fy))
    with (Ret (PyFloat (fx * 0 + fy))).
  rewrite !result_bind_ret.
  destruct (float_mul_zero fy Hy) as [sy Zy].
  destruct (float_mul_zero fx Hx) as [sx Zx].
  rewrite (py_int_sub_zero _ _ _ Hx Zy), (py_int_float_quot _ Hx), result_bind_ret.
  rewrite (py_int_zero_add _ _ _ Hy Zx), (py_int_float_quot _ Hy), result_bind_ret.
  reflexivity.
Qed.

End RotateFloat.

Lemma rotate_zero_truncates_witness :
  rotate sample_sin sample_cos (PyFloat (-12), PyFloat 7.5) 0 = Ret (-12, 7).
Proof.
  exact (rotate_zero_truncates sample_sin sample_cos eq_refl eq_refl
           (-12)%float 7.5%float eq_refl eq_refl).
Defined.

Lemma mapM_three {A B} (f : A -> result B) (a b c : A) (a' b' c' : B) :
  f a = Ret a' -> f b = Ret b' -> f c = Ret c' ->
  mapM f [a; b; c] = Ret [a'; b'; c'].
Proof. intros Ha Hb Hc. simpl. by rewrite Ha, Hb, Hc. Qed.

Section InitFacts.

Variables libm_sin libm_cos : float -> float.

Hypothesis cos_0 : libm_cos 0%float = 1%float.
Hypothesis sin_0 : libm_sin 0%float = 0%float.

(** X5: a session straight out of [__init__] composites any buffer of
    size x size bytes without error. *)
Theorem fresh_session_accepts_map (size : Z) (scale : pynum) (name : string)
    (fig : Z) (map_size_mm : pynum) (mapbytes : list byte) :
  0 <= size ->
  py_mul scale size = Ret map_size_mm ->
  Z.of_nat (length mapbytes) = size * size ->
  (__init__ libm_sin libm_cos size scale name fig;; displayMap mapbytes) blank =
    (Ret tt,
     {| self := with_bgrbytes (triple_bytes mapbytes)
                  (fresh_session size scale name fig);
        calls := init_calls size name map_size_mm ++
                   [cv_SetData (triple_bytes mapbytes) (size * 3)] |}).
Proof.
  intros Hsize Hmm Hlen. unfold mbind, M_bind.
  rewrite (init_run _ _ cos_0 sin_0 _ _ _ _ map_size_mm) by done.
  rewrite displayMap_ok; [done|].
  simpl. rewrite length_replicate. nia.
Qed.

(** X7: the first [refresh] of a new session returns [False] without a
    call when pyplot's current figure is not the one [__init__]
    created, [False] after the redraw and the pause when the pause
    raises, and otherwise pushes the image, polls the keyboard and
    returns whether the key is not 27. *)
Theorem fresh_session_refresh (size : Z) (scale : pynum) (name : string)
    (fig : Z) (map_size_mm : pynum) (e : Env) :
  0 <= size ->
  py_mul scale size = Ret map_size_mm ->
  (__init__ libm_sin libm_cos size scale name fig;; refresh e) blank =
    if negb (fig =? env_gcf e)
    then (Ret false,
          {| self := fresh_session size scale name fig;
             calls := init_calls size name map_size_mm |})
    else match env_pause e with
         | Some _ =>
             (Ret false,
              {| self := fresh_session size scale name fig;
                 calls := init_calls size name map_size_mm ++
                            [plt_draw; plt_pause] |})
         | None =>
             (Ret (negb (env_key e =? 27)),
              {| self := fresh_session size scale name fig;
                 calls := init_calls size name map_size_mm ++
                            [plt_draw; plt_pause; cv_ShowImage name;
                             cv_WaitKey 1] |})
         end.
Proof.
  intros Hsize Hmm. unfold mbind, M_bind.
  rewrite (init_run _ _ cos_0 sin_0 _ _ _ _ map_size_mm) by done.
  rewrite refresh_run. simpl.
  destruct (negb (fig =? env_gcf e)); [done|].
  destruct (env_pause e); [done|]. by destruct (env_key e =? 27).
Qed.

(** X16: at orientation 0 and an integer scale s, [displayRobot] draws
    one closed polyline through (x - 8s, y + 5s), (x + 8s, y) and
    (x - 8s, y - 8s), where (x, y) is the pose in pixels. *)
Theorem displayRobot_unrotated (x_mm y_mm : pynum) (scale : Z) (c : color)
    (line_thickness x_pix y_pix : Z) (w : World) :
  Z.abs (8 * scale) < 2 ^ 53 ->
  mm2pix (map_scale_mm_per_pixel (self w)) x_mm = Ret x_pix ->
  mm2pix (map_scale_mm_per_pixel (self w)) y_mm = Ret y_pix ->
  displayRobot libm_sin libm_cos (x_mm, y_mm, PyInt 0) c scale line_thickness w =
    (Ret tt,
     emit [cv_PolyLine [(x_pix + -8 * scale, y_pix + 5 * scale);
                        (x_pix + 8 * scale, y_pix + 0);
                        (x_pix + -8 * scale, y_pix + -8 * scale)]
             true c line_thickness] w).
Proof.
  intros Hs Hx Hy. unfold displayRobot.
  rewrite bind_get_self, robot_polyline_int, bind_lift_ret.
  rewrite (mapM_three _ _ _ _ (-8 * scale, 5 * scale) (8 * scale, 0)
             (-8 * scale, -8 * scale))
    by (apply rotate_zero_int; (done || lia)).
  rewrite bind_lift_ret, Hx, bind_lift_ret, Hy, bind_lift_ret.
  by rewrite call_run.
Qed.

End InitFacts.

Lemma fresh_session_accepts_map_witness :
  (__init__ sample_sin sample_cos 2 10 "SLAM" 77;;
   displayMap [x0a; x14; x1e; x28]) blank =
    (Ret tt,
     {| self := with_bgrbytes
                  [x0a; x0a; x0a; x14; x14; x14; x1e; x1e; x1e; x28; x28; x28]
                  (fresh_session 2 10 "SLAM" 77);
        calls := init_calls 2 "SLAM" 20 ++
          [cv_SetData
             [x0a; x0a; x0a; x14; x14; x14; x1e; x1e; x1e; x28; x28; x28] 6] |}).
Proof.
  apply (fresh_session_accepts_map sample_sin sample_cos eq_refl eq_refl
           2 10 "SLAM" 77 20 [x0a; x14; x1e; x28]);
    [lia | reflexivity | reflexivity].
Defined.

Lemma fresh_session_refresh_witness :
  (__init__ sample_sin sample_cos 2 10 "SLAM" 77;; refresh idle_env) blank =
    (Ret true,
     {| self := fresh_session 2 10 "SLAM" 77;
        calls := init_calls 2 "SLAM" 20 ++
          [plt_draw; plt_pause; cv_ShowImage "SLAM"; cv_WaitKey 1] |}).
Proof.
  apply (fresh_session_refresh sample_sin sample_cos eq_refl eq_refl
           2 10 "SLAM" 77 20 idle_env); [lia | reflexivity].
Defined.

Lemma displayRobot_unrotated_witness :
  displayRobot sample_sin sample_cos (PyInt 1000, PyFloat 255.5, PyInt 0)
    ROBOT_COLOR_BGR 2 1 session2 =
    (Ret tt,
     emit [cv_PolyLine [(84, 35); (116, 25); (84, 9)] true (0, 0, 255) 1]
       session2).
Proof.
  apply (displayRobot_unrotated sample_sin sample_cos eq_refl eq_refl
           1000 (PyFloat 255.5) 2 ROBOT_COLOR_BGR 1 100 25 session2);
    [vm_compute; reflexivity | reflexivity | reflexivity].
Defined.

(** ** refresh when any surface call may raise *)

Lemma refresh_surfaces_calm (e : Env) (w : World) :
  refresh_surfaces (calm e) w = refresh e w.
Proof.
  rewrite refresh_run. unfold refresh_surfaces, calm; simpl sf_gcf.
  rewrite bind_get_self, bind_lift_ret.
  destruct (negb (figid (self w) =? env_gcf e)); [done|].
  unfold surface_call, try_, mbind, M_bind, call, lift, emit, refresh_calls,
    mret, M_ret; simpl.
  destruct (env_pause e); simpl; rewrite <- ?app_assoc; done.
Qed.

Lemma refresh_surfaces_run (e : Surfaces) (w : World) :
  refresh_surfaces e w =
    match sf_gcf e with
    | Raise x => (Raise x, w)
    | Ret cur =>
        if negb (figid (self w) =? cur) then (Ret false, w)
        else match sf_draw e with
        | Some x => (Raise x, emit [plt_draw] w)
        | None =>
            match sf_pause e with
            | Some _ => (Ret false, emit [plt_draw; plt_pause] w)
            | None =>
                match sf_show e with
                | Some x =>
                    (Raise x,
                     emit [plt_draw; plt_pause;
                           cv_ShowImage (window_name (self w))] w)
                | None =>
                    match sf_key e with
                    | Raise x => (Raise x, emit (refresh_calls (self w)) w)
                    | Ret k =>
                        (Ret (if k =? 27 then false else true),
                         emit (refresh_calls (self w)) w)
                    end
                end
            end
        end
    end.
Proof.
  unfold refresh_surfaces. rewrite bind_get_self.
  destruct (sf_gcf e) as [cur|x]; [|done]. rewrite bind_lift_ret.
  destruct (negb (figid (self w) =? cur)); [done|].
  unfold surface_call, try_, mbind, M_bind, call, lift, emit, refresh_calls,
    mret, M_ret; simpl.
  destruct (sf_draw e); simpl; [done|].
  destruct (sf_pause e); simpl; [by rewrite <- ?app_assoc|].
  destruct (sf_show e); simpl; [by rewrite <- ?app_assoc|].
  destruct (sf_key e); simpl; by rewrite <- ?app_assoc.
Qed.

(** C9 (as amended): [refresh] turns its two soft failures into
    [False]: a current figure other than the session's returns [False]
    before any drawing call, and any exception raised by [plt.pause]
    returns [False] after the redraw.  Nothing else is caught: an
    exception raised by [plt.gcf], [plt.draw], [cv.ShowImage] or
    [cv.WaitKey], which are outside the [try], reaches the caller.  When
    no surface raises, the result is whether the key polled is not 27. *)
Theorem refresh_soft_failures (e : Surfaces) (w : World) :
  (forall cur : Z, sf_gcf e = Ret cur -> figid (self w) <> cur ->
     refresh_surfaces e w = (Ret false, w))
  /\ (forall x : exn, sf_gcf e = Ret (figid (self w)) -> sf_draw e = None ->
        sf_pause e = Some x ->
        refresh_surfaces e w = (Ret false, emit [plt_draw; plt_pause] w))
  /\ (forall x : exn, sf_gcf e = Raise x ->
        refresh_surfaces e w = (Raise x, w))
  /\ (forall x : exn, sf_gcf e = Ret (figid (self w)) -> sf_draw e = Some x ->
        refresh_surfaces e w = (Raise x, emit [plt_draw] w))
  /\ (forall x : exn, sf_gcf e = Ret (figid (self w)) -> sf_draw e = None ->
        sf_pause e = None -> sf_show e = Some x ->
        refresh_surfaces e w =
          (Raise x,
           emit [plt_draw; plt_pause; cv_ShowImage (window_name (self w))] w))
  /\ (forall x : exn, sf_gcf e = Ret (figid (self w)) -> sf_draw e = None ->
        sf_pause e = None -> sf_show e = None -> sf_key e = Raise x ->
        refresh_surfaces e w = (Raise x, emit (refresh_calls (self w)) w))
  /\ (forall k : Z, sf_gcf e = Ret (figid (self w)) -> sf_draw e = None ->
        sf_pause e = None -> sf_show e = None -> sf_key e = Ret k ->
        refresh_surfaces e w =
          (Ret (negb (k =? 27)), emit (refresh_calls (self w)) w)).
Proof.
  repeat split; intros; rewrite refresh_surfaces_run;
    repeat match goal with H : _ = _ |- _ => rewrite H; clear H end;
    rewrite ?Z.eqb_refl; simpl; try done;
    try (by destruct (Z.eqb_spec (figid (self w)) cur));
    try (by destruct (k =? 27)).
Qed.

Lemma refresh_soft_failures_witness :
  refresh_surfaces
    {| sf_gcf := Ret 77; sf_draw := None; sf_pause := Some KeyboardInterrupt;
       sf_show := None; sf_key := Ret 27 |} session2 =
    (Ret false, emit [plt_draw; plt_pause] session2).
Proof.
  apply (proj1 (proj2 (refresh_soft_failures
           {| sf_gcf := Ret 77; sf_draw := None;
              sf_pause := Some KeyboardInterrupt;
              sf_show := None; sf_key := Ret 27 |} session2))
           KeyboardInterrupt); reflexivity.
Defined.

(** C9 (as stated) fails: when [plt.draw] raises, on a session whose
    figure is the current one, [refresh] raises that exception to its
    caller. *)
Lemma refresh_raises_from_draw :
  refresh_surfaces
    {| sf_gcf := Ret 77; sf_draw := Some RuntimeError; sf_pause := None;
       sf_show := None; sf_key := Ret (-1) |} session2 =
    (Raise RuntimeError, emit [plt_draw] session2).
Proof. reflexivity. Qed.
